(** * Pixlet editor core (src/src/App.vue): grid, tools, line interpolation,
    history and color history, as a shallow embedding in Rocq. *)

From Stdlib Require Import ZArith Lia.
From stdpp Require Import base list strings.
From Stdlib Require Import Ascii.
From Stdlib Require Import QArith Qminmax.

Local Open Scope Z_scope.

(* ------------------------------------------------------------------ *)
(** ** Grid model *)

(** Colors are the hex strings the editor stores in [grid.value]. *)
Abbreviation Color := string.

(** [grid.value : string[][]], row-major. *)
Abbreviation Grid := (list (list Color)).

Definition WHITE : Color := "#FFFFFF".
Definition BLACK : Color := "#000000".

(** [grid.value[row][col]] read at integer indices; a missing entry
    ([undefined] in JS) is [None]. *)
Definition cell (g : Grid) (r c : Z) : option Color :=
  if (0 <=? r) && (0 <=? c)
  then g !! Z.to_nat r ≫= fun line => line !! Z.to_nat c
  else None.

(** [grid.value[r][c] = v]; only ever executed at indices already checked
    against [gridHeight] / [gridWidth]. *)
Definition set_cell (g : Grid) (r c : Z) (v : Color) : Grid :=
  alter (fun line => <[Z.to_nat c := v]> line) (Z.to_nat r) g.

(** The bounds test [newRow >= 0 && newRow < gridHeight && ...]. *)
Definition in_bounds (H W r c : Z) : bool :=
  (0 <=? r) && (r <? H) && (0 <=? c) && (c <? W).

(** [Array(gridHeight).fill(null).map(() => Array(gridWidth).fill(color))] *)
Definition make_grid (H W : Z) (v : Color) : Grid :=
  replicate (Z.to_nat H) (replicate (Z.to_nat W) v).

(** A grid whose shape agrees with [gridHeight] x [gridWidth]. *)
Definition wf_grid (H W : Z) (g : Grid) : Prop :=
  length g = Z.to_nat H /\
  (forall (i : nat) (line : list Color), g !! i = Some line -> length line = Z.to_nat W).

(** [for (let k = lo; k < hi; k++)] *)
Definition zrange (lo hi : Z) : list Z :=
  map (fun k => lo + Z.of_nat k) (seq 0 (Z.to_nat (hi - lo))).

(** The brush loops of [drawPixel] (pencil and eraser):
    [offset = Math.floor(brushSize / 2)], both axes over
    [[-offset, brushSize - offset)], each in-bounds cell set to [v]. *)
Definition stamp (H W brushSize row col : Z) (v : Color) (g : Grid) : Grid :=
  let offset := brushSize / 2 in
  fold_left
    (fun g r =>
       fold_left
         (fun g c =>
            let newRow := row + r in
            let newCol := col + c in
            if in_bounds H W newRow newCol then set_cell g newRow newCol v else g)
         (zrange (- offset) (brushSize - offset)) g)
    (zrange (- offset) (brushSize - offset)) g.

(** One iteration of the brush loops, on the cell [p]. *)
Definition paint (H W : Z) (v : Color) (g : Grid) (p : Z * Z) : Grid :=
  if in_bounds H W p.1 p.2 then set_cell g p.1 p.2 v else g.

(** Cells covered by the brush square around [(row, col)]. *)
Definition in_brush (brushSize row col i j : Z) : bool :=
  let offset := brushSize / 2 in
  (row - offset <=? i) && (i <? row - offset + brushSize) &&
  (col - offset <=? j) && (j <? col - offset + brushSize).

(* ------------------------------------------------------------------ *)
(** ** Stroke interpolator: [drawLine] *)

(** The [while (true)] loop of [drawLine]. Each iteration hands the current
    cell to [drawPixel] (here: emits it), stops at [(row1, col1)], and
    otherwise steps the column and/or the row by comparing [e2 = 2 * err]
    with [-dy] and [dx]. The loop has no bound of its own; [fuel] counts
    iterations and [None] means it ran out. *)
Fixpoint line_loop (fuel : nat) (row1 col1 dx dy sx sy : Z)
         (currentRow currentCol err : Z) : option (list (Z * Z)) :=
  match fuel with
  | O => None
  | S fuel' =>
      if (currentRow =? row1) && (currentCol =? col1)
      then Some [(currentRow, currentCol)]
      else
        let e2 := 2 * err in
        let err1 := if -dy <? e2 then err - dy else err in
        let col' := if -dy <? e2 then currentCol + sx else currentCol in
        let err2 := if e2 <? dx then err1 + dx else err1 in
        let row' := if e2 <? dx then currentRow + sy else currentRow in
        option_map (cons (currentRow, currentCol))
          (line_loop fuel' row1 col1 dx dy sx sy row' col' err2)
  end.

(** [drawLine(row0, col0, row1, col1)]: the cells passed to [drawPixel],
    in order. The fuel [dx + dy + 1] is more than the loop ever needs. *)
Definition drawLine_cells (row0 col0 row1 col1 : Z) : option (list (Z * Z)) :=
  let dx := Z.abs (col1 - col0) in
  let dy := Z.abs (row1 - row0) in
  let sx := if col0 <? col1 then 1 else -1 in
  let sy := if row0 <? row1 then 1 else -1 in
  line_loop (S (Z.to_nat (dx + dy))) row1 col1 dx dy sx sy row0 col0 (dx - dy).

(** Consecutive cells differ by at most one row and one column. *)
Fixpoint steps_ok (l : list (Z * Z)) : Prop :=
  match l with
  | p :: ((q :: _) as l') =>
      Z.abs (q.1 - p.1) <= 1 /\ Z.abs (q.2 - p.2) <= 1 /\ steps_ok l'
  | _ => True
  end.

(* ------------------------------------------------------------------ *)
(** ** Flood fill *)

(** Number of cells of [g] holding color [t]. *)
Definition count_color (t : Color) (g : Grid) : nat :=
  sum_list_with (fun line => length (List.filter (fun x => String.eqb x t) line)) g.

(** The recursive [floodFill(row, col, targetColor, replacementColor)];
    the grid is threaded through the four calls in source order.
    [fuel] bounds the recursion depth; [None] means it ran out. *)
Fixpoint floodFill (fuel : nat) (H W : Z) (row col : Z) (targetColor replacementColor : Color)
         (g : Grid) : option Grid :=
  match fuel with
  | O => None
  | S f =>
      if String.eqb targetColor replacementColor then Some g else
      if negb (in_bounds H W row col) then Some g else
      match cell g row col with
      | Some x =>
          if negb (String.eqb x targetColor) then Some g else
          let g1 := set_cell g row col replacementColor in
          g2 ← floodFill f H W (row - 1) col targetColor replacementColor g1;
          g3 ← floodFill f H W (row + 1) col targetColor replacementColor g2;
          g4 ← floodFill f H W row (col - 1) targetColor replacementColor g3;
          floodFill f H W row (col + 1) targetColor replacementColor g4
      | None => Some g  (* [undefined !== targetColor] *)
      end
  end.

(** A depth bound that always suffices (theorem [floodFill_terminates]). *)
Definition fill_fuel (t : Color) (g : Grid) : nat := S (count_color t g).

(** [g'] agrees with [g] except on cells turned from [t] into [rep]. *)
Definition recolors (t rep : Color) (g g' : Grid) : Prop :=
  forall i j, cell g' i j = cell g i j \/ (cell g i j = Some t /\ cell g' i j = Some rep).

(** The four cells [floodFill] recurses into. *)
Definition adjacent (i j i' j' : Z) : Prop :=
  (i' = i - 1 /\ j' = j) \/ (i' = i + 1 /\ j' = j) \/
  (i' = i /\ j' = j - 1) \/ (i' = i /\ j' = j + 1).

(** Every cell repainted from [g] to [g'] has no in-range neighbour still
    holding [t] in [g']. *)
Definition fill_closed (H W : Z) (t rep : Color) (g g' : Grid) : Prop :=
  forall i j i' j', cell g i j = Some t -> cell g' i j = Some rep ->
    adjacent i j i' j' -> in_bounds H W i' j' = true -> cell g' i' j' <> Some t.

(* ------------------------------------------------------------------ *)
(** ** History *)

Record History := mkHistory { history : list Grid; historyIndex : Z }.

Definition MAX_HISTORY : Z := 50.

(** [saveState]: drop the redo future ([slice(0, historyIndex + 1)]), push a
    copy of the grid, then either [shift()] the oldest entry (bound
    exceeded) or advance the cursor. *)
Definition saveState (g : Grid) (h : History) : History :=
  let hs := take (Z.to_nat (historyIndex h + 1)) (history h) ++ [g] in
  if MAX_HISTORY <? Z.of_nat (length hs)
  then mkHistory (drop 1 hs) (historyIndex h)
  else mkHistory hs (historyIndex h + 1).

(** [undo]: move the cursor back and copy that entry into the grid.
    [None] is the TypeError of reading a missing entry. *)
Definition undo (h : History) (g : Grid) : option (History * Grid) :=
  if 0 <? historyIndex h then
    let i := historyIndex h - 1 in
    s ← history h !! Z.to_nat i; Some (mkHistory (history h) i, s)
  else Some (h, g).

(** [redo] *)
Definition redo (h : History) (g : Grid) : option (History * Grid) :=
  if historyIndex h <? Z.of_nat (length (history h)) - 1 then
    let i := historyIndex h + 1 in
    s ← history h !! Z.to_nat i; Some (mkHistory (history h) i, s)
  else Some (h, g).

(** The well-formed stacks: cursor inside, at most [MAX_HISTORY] entries;
    or the empty stack with cursor [-1] that [initializeGrid] resets to. *)
Definition wf_history (h : History) : Prop :=
  (history h = [] /\ historyIndex h = -1) \/
  (0 <= historyIndex h < Z.of_nat (length (history h)) /\
   Z.of_nat (length (history h)) <= MAX_HISTORY).

(** [undo()] called [n] times (each call sees the previous one's result). *)
Fixpoint undo_n (n : nat) (h : History) (g : Grid) : option (History * Grid) :=
  match n with
  | O => Some (h, g)
  | S n' => '(h', g') ← undo h g; undo_n n' h' g'
  end.

(** [redo()] called [n] times. *)
Fixpoint redo_n (n : nat) (h : History) (g : Grid) : option (History * Grid) :=
  match n with
  | O => Some (h, g)
  | S n' => '(h', g') ← redo h g; redo_n n' h' g'
  end.

(** [saveState] for each grid of [gs], in order. *)
Definition save_all (gs : list Grid) (h : History) : History :=
  fold_left (fun h g => saveState g h) gs h.

(** The last [n] elements of a list. *)
Definition last_n {A} (n : nat) (l : list A) : list A := drop (length l - n) l.

(* ------------------------------------------------------------------ *)
(** ** Color history *)

(** [addToColorHistory]: [[color, ...filtered].slice(0, 20)]. *)
Definition addToColorHistory (color : Color) (colorHistory : list Color) : list Color :=
  take 20 (color :: List.filter (fun c => negb (String.eqb c color)) colorHistory).

(* ------------------------------------------------------------------ *)
(** ** Editor state and pointer events *)

Inductive Tool := pencil | eraser | fill | eyedropper.

Definition is_brush_tool (t : Tool) : bool :=
  match t with pencil | eraser => true | _ => false end.

(** The component's refs that the editing core reads and writes
    ([hoveredCell] only drives the hover preview and is left out). *)
Record Editor := mkEditor {
  gridHeight : Z;
  gridWidth : Z;
  grid : Grid;
  currentColor : Color;
  currentTool : Tool;
  isDrawing : bool;
  lastDrawnPos : option (Z * Z);
  brushSize : Z;
  hist : History;
  colorHistory : list Color
}.

Definition set_grid (g : Grid) (s : Editor) : Editor :=
  mkEditor (gridHeight s) (gridWidth s) g (currentColor s) (currentTool s)
    (isDrawing s) (lastDrawnPos s) (brushSize s) (hist s) (colorHistory s).
Definition set_color (c : Color) (s : Editor) : Editor :=
  mkEditor (gridHeight s) (gridWidth s) (grid s) c (currentTool s)
    (isDrawing s) (lastDrawnPos s) (brushSize s) (hist s) (colorHistory s).
Definition set_tool (t : Tool) (s : Editor) : Editor :=
  mkEditor (gridHeight s) (gridWidth s) (grid s) (currentColor s) t
    (isDrawing s) (lastDrawnPos s) (brushSize s) (hist s) (colorHistory s).
Definition set_drawing (b : bool) (s : Editor) : Editor :=
  mkEditor (gridHeight s) (gridWidth s) (grid s) (currentColor s) (currentTool s)
    b (lastDrawnPos s) (brushSize s) (hist s) (colorHistory s).
Definition set_last (p : option (Z * Z)) (s : Editor) : Editor :=
  mkEditor (gridHeight s) (gridWidth s) (grid s) (currentColor s) (currentTool s)
    (isDrawing s) p (brushSize s) (hist s) (colorHistory s).
Definition set_hist (h : History) (s : Editor) : Editor :=
  mkEditor (gridHeight s) (gridWidth s) (grid s) (currentColor s) (currentTool s)
    (isDrawing s) (lastDrawnPos s) (brushSize s) h (colorHistory s).
Definition set_colorHistory (ch : list Color) (s : Editor) : Editor :=
  mkEditor (gridHeight s) (gridWidth s) (grid s) (currentColor s) (currentTool s)
    (isDrawing s) (lastDrawnPos s) (brushSize s) (hist s) ch.

(** [saveState] on the editor. *)
Definition saveState_ed (s : Editor) : Editor :=
  set_hist (saveState (grid s) (hist s)) s.

(** [drawPixel(row, col)]. [None] stands for a run the model does not
    cover: flood fill out of fuel (never, see [floodFill_terminates]) or an
    eyedropper read of a missing cell. *)
Definition drawPixel (s : Editor) (row col : Z) : option Editor :=
  let H := gridHeight s in
  let W := gridWidth s in
  if negb (in_bounds H W row col) then Some s else
  match currentTool s with
  | pencil =>
      let color := currentColor s in
      let s1 := set_colorHistory (addToColorHistory color (colorHistory s)) s in
      Some (set_grid (stamp H W (brushSize s) row col color (grid s)) s1)
  | eraser =>
      Some (set_grid (stamp H W (brushSize s) row col WHITE (grid s)) s)
  | fill =>
      g' ← match cell (grid s) row col with
           | Some t => floodFill (fill_fuel t (grid s)) H W row col t (currentColor s) (grid s)
           | None => Some (grid s)
           end;
      let s1 := set_grid g' s in
      let s2 := set_colorHistory (addToColorHistory (currentColor s) (colorHistory s1)) s1 in
      Some (saveState_ed s2)
  | eyedropper =>
      c ← cell (grid s) row col;
      Some (set_tool pencil (set_color c s))
  end.

(** [drawPixel] over a list of cells, in order. *)
Fixpoint drawPixels (s : Editor) (cells : list (Z * Z)) : option Editor :=
  match cells with
  | [] => Some s
  | (r, c) :: rest => s' ← drawPixel s r c; drawPixels s' rest
  end.

(** [drawLine]: the cells of the Bresenham loop, each given to [drawPixel]
    (which never changes the tool while a pencil or eraser is active). *)
Definition drawLine (s : Editor) (row0 col0 row1 col1 : Z) : option Editor :=
  cells ← drawLine_cells row0 col0 row1 col1; drawPixels s cells.

(** [startDrawing(row, col)] *)
Definition startDrawing (s : Editor) (row col : Z) : option Editor :=
  drawPixel (set_last (Some (row, col)) (set_drawing true s)) row col.

(** [stopDrawing()] *)
Definition stopDrawing (s : Editor) : Editor :=
  let s1 := if isDrawing s then saveState_ed s else s in
  set_last None (set_drawing false s1).

(** [onCanvasMouseMove] with [event.buttons] and the clamped coordinates
    [(row, col)]; without the primary button only the hover preview is
    redrawn. *)
Definition onCanvasMouseMove (s : Editor) (buttons row col : Z) : option Editor :=
  if buttons =? 1 then
    let s1 := if negb (isDrawing s) && is_brush_tool (currentTool s)
              then set_drawing true s else s in
    if isDrawing s1 && is_brush_tool (currentTool s1) then
      s2 ← match lastDrawnPos s1 with
           | Some (lr, lc) =>
               if negb ((lr =? row) && (lc =? col)) then drawLine s1 lr lc row col
               else Some s1
           | None => drawPixel s1 row col
           end;
      Some (set_last (Some (row, col)) s2)
    else Some s1
  else Some s.

(** Pointer events, with coordinates as returned by [getCanvasCoordinates].
    [MouseUp] is a release over the canvas: [onCanvasMouseUp] runs, then the
    [document] listener registered in [onMounted]; [DocMouseUp] is a release
    elsewhere (document listener only). *)
Inductive Event :=
  | MouseDown (row col : Z)
  | MouseMove (buttons row col : Z)
  | MouseUp
  | DocMouseUp.

Definition step (s : Editor) (e : Event) : option Editor :=
  match e with
  | MouseDown row col => startDrawing s row col
  | MouseMove b row col => onCanvasMouseMove s b row col
  | MouseUp => Some (stopDrawing (stopDrawing s))
  | DocMouseUp => Some (stopDrawing s)
  end.

Fixpoint run (s : Editor) (es : list Event) : option Editor :=
  match es with
  | [] => Some s
  | e :: es' => s' ← step s e; run s' es'
  end.

(** [initializeGrid()] *)
Definition initializeGrid (s : Editor) : Editor :=
  let s1 := set_grid (make_grid (gridHeight s) (gridWidth s) WHITE) s in
  saveState_ed (set_hist (mkHistory [] (-1)) s1).

(** The editor after [onMounted] with grid size [n]. *)
Definition fresh_editor (n : Z) : Editor :=
  initializeGrid (mkEditor n n [] BLACK pencil false None 1 (mkHistory [] (-1)) [BLACK; WHITE]).

(** Number of history entries. *)
Definition hist_len (s : Editor) : nat := length (history (hist s)).

(* ------------------------------------------------------------------ *)
(** ** Canvas coordinates and the hover preview *)

(** The clamping of [getCanvasCoordinates], applied to the floored cell
    indices [row = Math.floor(y / pixelSize)], [col = Math.floor(x / pixelSize)]. *)
Definition clampCoords (H W row col : Z) : Z * Z :=
  (Z.max 0 (Z.min (H - 1) row), Z.max 0 (Z.min (W - 1) col)).

(** The cells [renderHoverPreview] passes to [fillRect], in loop order. *)
Definition hoverCells (H W brushSize row col : Z) : list (Z * Z) :=
  let offset := brushSize / 2 in
  concat (map (fun r =>
    concat (map (fun c =>
      let newRow := row + r in
      let newCol := col + c in
      if in_bounds H W newRow newCol then [(newRow, newCol)] else [])
      (zrange (- offset) (brushSize - offset))))
    (zrange (- offset) (brushSize - offset))).

(** [renderHoverPreview()] with the canvas context present: [None] for its
    early returns, otherwise the preview colour and the filled cells. *)
Definition renderHoverPreview (s : Editor) (hoveredCell : option (Z * Z))
    : option (Color * list (Z * Z)) :=
  match hoveredCell with
  | None => None
  | Some (row, col) =>
      if isDrawing s then None else
      match currentTool s with
      | fill | eyedropper => None
      | t =>
          let previewColor := match t with eraser => WHITE | _ => currentColor s end in
          Some (previewColor,
                hoverCells (gridHeight s) (gridWidth s) (brushSize s) row col)
      end
  end.

(* ------------------------------------------------------------------ *)
(** ** Keyboard shortcuts *)

(** The fields of a [KeyboardEvent] the [keydown] listener reads. *)
Record KeyEvent := mkKeyEvent {
  ctrlKey : bool;
  metaKey : bool;
  shiftKey : bool;
  key : string
}.

(** [undo()] on the editor. *)
Definition undo_ed (s : Editor) : option Editor :=
  '(h, g) ← undo (hist s) (grid s); Some (set_grid g (set_hist h s)).

(** [redo()] on the editor. *)
Definition redo_ed (s : Editor) : option Editor :=
  '(h, g) ← redo (hist s) (grid s); Some (set_grid g (set_hist h s)).

(** The [keydown] listener registered in [onMounted]. *)
Definition onKeyDown (s : Editor) (event : KeyEvent) : option Editor :=
  if (ctrlKey event || metaKey event) && String.eqb (key event) "z" && negb (shiftKey event)
  then undo_ed s
  else if (ctrlKey event || metaKey event) &&
          (String.eqb (key event) "y" || String.eqb (key event) "z" && shiftKey event)
  then redo_ed s
  else Some s.

(** Ctrl+[k] with no other modifier. *)
Definition ctrl_key (k : string) : KeyEvent := mkKeyEvent true false false k.

(* ------------------------------------------------------------------ *)
(** ** [parseInt(value)] (no radix) *)

(** JS strings are modelled as strings of code units below 256; among
    those, [StrWhiteSpaceChar] is TAB, LF, VT, FF, CR, SPACE and NBSP. *)
Definition is_js_space (c : Ascii.ascii) : bool :=
  match Ascii.nat_of_ascii c with
  | 9 | 10 | 11 | 12 | 13 | 32 | 160 => true
  | _ => false
  end%nat.

Fixpoint trim_start (s : string) : string :=
  match s with
  | String c s' => if is_js_space c then trim_start s' else s
  | EmptyString => EmptyString
  end.

(** The value of a digit character in bases up to 36; [36] for a
    character that is no digit. *)
Definition digit_value (c : Ascii.ascii) : Z :=
  let n := Z.of_nat (Ascii.nat_of_ascii c) in
  if (48 <=? n) && (n <=? 57) then n - 48
  else if (97 <=? n) && (n <=? 122) then n - 87
  else if (65 <=? n) && (n <=? 90) then n - 55
  else 36.

(** The digit values of the longest prefix of radix-[R] digits. *)
Fixpoint take_digits (R : Z) (s : string) : list Z :=
  match s with
  | String c s' => if digit_value c <? R then digit_value c :: take_digits R s' else []
  | EmptyString => []
  end.

Definition digits_value (R : Z) (ds : list Z) : Z :=
  fold_left (fun acc d => acc * R + d) ds 0.

(** [parseInt(string)]: [None] is [NaN]. The mathematical value is
    returned; the rounding to a Number is monotone and keeps every integer
    up to 2^53, so comparisons with 8 and 64 are unaffected. *)
(** The sign step of [parseInt]: an optional leading [-] or [+]. *)
Definition parse_sign (S0 : string) : Z * string :=
  match S0 with
  | String c r =>
      if Ascii.eqb c "-"%char then (-1, r)
      else if Ascii.eqb c "+"%char then (1, r) else (1, S0)
  | EmptyString => (1, S0)
  end.

(** The radix step with no radix given: a [0x] or [0X] prefix selects 16. *)
Definition parse_prefix (S1 : string) : Z * string :=
  match S1 with
  | String c0 (String c1 r) =>
      if Ascii.eqb c0 "0"%char && (Ascii.eqb c1 "x"%char || Ascii.eqb c1 "X"%char)
      then (16, r) else (10, S1)
  | _ => (10, S1)
  end.

Definition parseInt (input : string) : option Z :=
  let '(sign, S1) := parse_sign (trim_start input) in
  let '(R, S2) := parse_prefix S1 in
  match take_digits R S2 with
  | [] => None
  | ds => Some (sign * digits_value R ds)
  end.




(* ------------------------------------------------------------------ *)
(** ** Dialogs, clearing and resizing *)

Inductive DialogType := confirm | prompt | alert.

(** The callbacks the component passes to [showDialog]: the ones of
    [clearGrid] and [resizeGrid], and the empty [() => {}] of the alerts. *)
Inductive Callback := clearCallback | resizeCallback | noopCallback.

(** A callback argument: [value?: string | boolean]. *)
Inductive CbValue := CbString (v : string) | CbBool (b : bool) | CbUndefined.

(** The component state: the editor and the dialog refs ([dialogTitle]
    and [dialogMessage] are only displayed and are left out). *)
Record App := mkApp {
  ed : Editor;
  dialogVisible : bool;
  dialogType : DialogType;
  dialogInput : string;
  dialogCallback : option Callback
}.

Definition set_ed (s : Editor) (a : App) : App :=
  mkApp s (dialogVisible a) (dialogType a) (dialogInput a) (dialogCallback a).

(** [showDialog(type, title, message, callback)] *)
Definition showDialog (type : DialogType) (callback : Callback) (a : App) : App :=
  mkApp (ed a) true type "" (Some callback).

(** [closeDialog()] *)
Definition closeDialog (a : App) : App :=
  mkApp (ed a) false (dialogType a) (dialogInput a) None.

(** Typing into the prompt's input ([v-model="dialogInput"]). *)
Definition typeInput (v : string) (a : App) : App :=
  mkApp (ed a) (dialogVisible a) (dialogType a) v (dialogCallback a).

(** JS truthiness of a callback argument. *)
Definition truthy (v : CbValue) : bool :=
  match v with
  | CbString s => negb (String.eqb s "")
  | CbBool b => b
  | CbUndefined => false
  end.

(** [ToString] of a callback argument, as [parseInt] applies it. *)
Definition cb_string (v : CbValue) : string :=
  match v with
  | CbString s => s
  | CbBool true => "true"
  | CbBool false => "false"
  | CbUndefined => "undefined"
  end.

(** The loops of [clearGrid]'s callback: [grid.value[row][col] = '#FFFFFF']
    over [0 <= row < gridHeight], [0 <= col < gridWidth] (every index is in
    range on a well-formed grid). *)
Definition clearCells (H W : Z) (g : Grid) : Grid :=
  fold_left (fun g row => fold_left (fun g col => set_cell g row col WHITE) (zrange 0 W) g)
    (zrange 0 H) g.

Definition set_size (n : Z) (s : Editor) : Editor :=
  mkEditor n n (grid s) (currentColor s) (currentTool s)
    (isDrawing s) (lastDrawnPos s) (brushSize s) (hist s) (colorHistory s).

(** Calling a callback with an argument. *)
Definition runCallback (cb : Callback) (value : CbValue) (a : App) : App :=
  match cb with
  | clearCallback =>
      if truthy value then
        let s := ed a in
        set_ed (saveState_ed (set_grid (clearCells (gridHeight s) (gridWidth s) (grid s)) s)) a
      else a
  | resizeCallback =>
      if negb (truthy value) then a else
      match parseInt (cb_string value) with
      | None => showDialog alert noopCallback a
      | Some newSize =>
          if (newSize <? 8) || (64 <? newSize) then showDialog alert noopCallback a
          else set_ed (initializeGrid (set_size newSize (ed a))) a
      end
  | noopCallback => a
  end.

(** [confirmDialog()] (the Confirm/OK button, Enter in the prompt). *)
Definition confirmDialog (a : App) : App :=
  let a1 :=
    match dialogCallback a with
    | Some cb =>
        runCallback cb
          (match dialogType a with
           | prompt => CbString (dialogInput a)
           | confirm => CbBool true
           | alert => CbUndefined
           end) a
    | None => a
    end in
  closeDialog a1.

(** [cancelDialog()] (the Cancel button, a click on the overlay). *)
Definition cancelDialog (a : App) : App :=
  let a1 :=
    match dialogCallback a, dialogType a with
    | Some cb, confirm => runCallback cb (CbBool false) a
    | _, _ => a
    end in
  closeDialog a1.

(** [clearGrid()] and [resizeGrid()]: open their dialogs. *)
Definition clearGrid (a : App) : App := showDialog confirm clearCallback a.
Definition resizeGrid (a : App) : App := showDialog prompt resizeCallback a.

(* ------------------------------------------------------------------ *)
(** ** Editor invariant *)

(** What the editor keeps between events: a grid of the declared shape,
    a well-formed history stack whose entries all have that shape, and a
    duplicate-free color history of at most 20 entries. *)
Definition editor_inv (s : Editor) : Prop :=
  wf_grid (gridHeight s) (gridWidth s) (grid s) /\ wf_history (hist s) /\
  Forall (wf_grid (gridHeight s) (gridWidth s)) (history (hist s)) /\
  List.NoDup (colorHistory s) /\ (length (colorHistory s) <= 20)%nat.

(** The inputs the editor core reacts to: pointer events on the canvas and
    the [keydown] listener of [onMounted], in the order they arrive. *)
Inductive Input :=
  | Pointer (e : Event)
  | Key (event : KeyEvent).

Definition dispatch (s : Editor) (i : Input) : option Editor :=
  match i with
  | Pointer e => step s e
  | Key event => onKeyDown s event
  end.

Fixpoint session (s : Editor) (ins : list Input) : option Editor :=
  match ins with
  | [] => Some s
  | i :: ins' => s' ← dispatch s i; session s' ins'
  end.

(* ------------------------------------------------------------------ *)
(** ** Zoom *)

(** Zoom levels are JS numbers, written here as rationals; [fadd] is the
    floating-point addition [zoomLevel.value + delta] (left as a parameter:
    the clamps below do not depend on how it rounds). *)
Definition MIN_ZOOM : Q := 1 # 4.
Definition MAX_ZOOM : Q := 4.

(** [zoomIn()], [zoomOut()], [resetZoom()] *)
Definition zoomIn (fadd : Q -> Q -> Q) (zoomLevel : Q) : Q :=
  Qmin MAX_ZOOM (fadd zoomLevel (1 # 4)).
Definition zoomOut (fadd : Q -> Q -> Q) (zoomLevel : Q) : Q :=
  Qmax MIN_ZOOM (fadd zoomLevel (- (1 # 4))%Q).
Definition resetZoom (zoomLevel : Q) : Q := 1.

(** [handleWheel(event)]: [delta = event.deltaY > 0 ? -0.1 : 0.1]. *)
Definition handleWheel (fadd : Q -> Q -> Q) (deltaY zoomLevel : Q) : Q :=
  let delta := if negb (Qle_bool deltaY 0) then (- (1 # 10))%Q else (1 # 10)%Q in
  Qmax MIN_ZOOM (Qmin MAX_ZOOM (fadd zoomLevel delta)).

Inductive ZoomAction :=
  | ZoomInClick
  | ZoomOutClick
  | ResetZoomClick
  | Wheel (deltaY : Q).

Definition zoom_step (fadd : Q -> Q -> Q) (zoomLevel : Q) (a : ZoomAction) : Q :=
  match a with
  | ZoomInClick => zoomIn fadd zoomLevel
  | ZoomOutClick => zoomOut fadd zoomLevel
  | ResetZoomClick => resetZoom zoomLevel
  | Wheel deltaY => handleWheel fadd deltaY zoomLevel
  end.

Definition zoom_run (fadd : Q -> Q -> Q) (zoomLevel : Q) (acts : list ZoomAction) : Q :=
  fold_left (zoom_step fadd) acts zoomLevel.

(* ================================================================== *)
(** * Proofs *)

(* ------------------------------------------------------------------ *)
(** ** Grid lemmas *)

Lemma wf_grid_row (H W : Z) (g : Grid) (r : Z) :
  wf_grid H W g -> 0 <= r < H ->
  exists line, g !! Z.to_nat r = Some line /\ length line = Z.to_nat W.
Proof.
  intros [Hlen Hrow] Hr.
  destruct (g !! Z.to_nat r) as [line|] eqn:E.
  - exists line. split; [done | eapply Hrow; eauto].
  - apply lookup_ge_None in E. lia.
Qed.

Lemma cell_set_cell (H W : Z) (g : Grid) (r c i j : Z) (v : Color) :
  wf_grid H W g -> in_bounds H W r c = true ->
  cell (set_cell g r c v) i j = if (i =? r) && (j =? c) then Some v else cell g i j.
Proof.
  intros Hwf Hb. unfold in_bounds in Hb.
  repeat rewrite andb_true_iff in Hb. rewrite !Z.leb_le, !Z.ltb_lt in Hb.
  destruct (wf_grid_row H W g r Hwf ltac:(lia)) as (line & Hl & Hlen).
  unfold cell, set_cell.
  destruct (Z.eqb_spec i r) as [->|Hir]; destruct (Z.eqb_spec j c) as [->|Hjc].
  - cbn [andb].
    replace ((0 <=? r) && (0 <=? c)) with true
      by (symmetry; apply andb_true_iff; split; apply Z.leb_le; lia).
    rewrite list_lookup_alter_eq, Hl. cbn [andb].
    apply list_lookup_insert_eq. lia.
  - cbn [andb].
    replace (0 <=? r) with true by (symmetry; apply Z.leb_le; lia). cbn [andb].
    destruct (Z.leb_spec 0 j); cbn [andb]; [|done].
    rewrite list_lookup_alter_eq, Hl. cbn [andb].
    apply list_lookup_insert_ne. lia.
  - cbn [andb].
    destruct ((0 <=? i) && (0 <=? c)) eqn:E; [|done].
    rewrite andb_true_iff, !Z.leb_le in E.
    rewrite list_lookup_alter_ne; [done|lia].
  - cbn [andb].
    destruct ((0 <=? i) && (0 <=? j)) eqn:E; [|done].
    rewrite andb_true_iff, !Z.leb_le in E.
    rewrite list_lookup_alter_ne; [done|lia].
Qed.

Lemma wf_set_cell (H W : Z) (g : Grid) (r c : Z) (v : Color) :
  wf_grid H W g -> wf_grid H W (set_cell g r c v).
Proof.
  intros [Hlen Hrow]. split.
  - unfold set_cell. rewrite length_alter. done.
  - intros i line Hi. unfold set_cell in Hi.
    rewrite list_lookup_alter in Hi.
    destruct (decide (Z.to_nat r = i)) as [<-|Hne].
    + destruct (g !! Z.to_nat r) as [l0|] eqn:E; simpl in Hi; [|done].
      injection Hi as <-. rewrite length_insert. eauto.
    + eauto.
Qed.

Lemma zrange_In (lo hi x : Z) : In x (zrange lo hi) <-> lo <= x < hi.
Proof.
  unfold zrange. rewrite in_map_iff. split.
  - intros (k & <- & Hk). apply in_seq in Hk. lia.
  - intros Hx. exists (Z.to_nat (x - lo)). split; [lia|]. apply in_seq. lia.
Qed.

Lemma fold_left_map_comm {A B C : Type} (f : A -> B -> A) (h : C -> B) (l : list C) (a : A) :
  fold_left f (map h l) a = fold_left (fun a x => f a (h x)) l a.
Proof. revert a. induction l as [|x l IH]; intros a; simpl; [done|apply IH]. Qed.

Section Stamp.
Variables (H W : Z) (v : Color).

Lemma fold_paint (ps : list (Z * Z)) (g : Grid) :
    wf_grid H W g ->
    wf_grid H W (fold_left (paint H W v) ps g) /\
    forall i j, cell (fold_left (paint H W v) ps g) i j =
      if existsb (fun p => in_bounds H W p.1 p.2 && (i =? p.1) && (j =? p.2)) ps
      then Some v else cell g i j.
  Proof.
    revert g. induction ps as [|p ps IH]; intros g Hwf; simpl; [done|].
    assert (Hwf' : wf_grid H W (paint H W v g p)).
    { unfold paint. destruct (in_bounds _ _ _ _); [apply wf_set_cell|]; done. }
    destruct (IH _ Hwf') as [Hw Hc]. split; [done|].
    intros i j. rewrite Hc. unfold paint.
    destruct (existsb _ ps); rewrite ?orb_true_r; [done|rewrite orb_false_r].
    destruct (in_bounds H W p.1 p.2) eqn:Eb; simpl; [|done].
    by rewrite (cell_set_cell H W).
  Qed.

Lemma nested_fold_paint (row col : Z) (rs cs : list Z) (g : Grid) :
    fold_left
      (fun g r =>
         fold_left
           (fun g c =>
              if in_bounds H W (row + r) (col + c)
              then set_cell g (row + r) (col + c) v else g) cs g) rs g =
    fold_left (paint H W v) (concat (map (fun r => map (fun c => (row + r, col + c)) cs) rs)) g.
  Proof.
    revert g. induction rs as [|r rs IH]; intros g; simpl; [done|].
    rewrite fold_left_app, fold_left_map_comm. apply IH.
  Qed.

Lemma stamp_as_fold (b row col : Z) (g : Grid) :
    stamp H W b row col v g =
    fold_left (paint H W v)
      (concat (map (fun r => map (fun c => (row + r, col + c))
                                 (zrange (- (b / 2)) (b - b / 2)))
                   (zrange (- (b / 2)) (b - b / 2)))) g.
  Proof. unfold stamp. apply nested_fold_paint. Qed.

Lemma stamp_cell (b row col : Z) (g : Grid) :
    wf_grid H W g ->
    wf_grid H W (stamp H W b row col v g) /\
    forall i j, cell (stamp H W b row col v g) i j =
      if in_bounds H W i j && in_brush b row col i j then Some v else cell g i j.
  Proof.
    intros Hwf. rewrite stamp_as_fold.
    edestruct (fold_paint) as [Hw Hc]; [exact Hwf|]. split; [done|].
    intros i j. rewrite Hc.
    set (cells := concat _).
    assert (Hiff : existsb (fun p => in_bounds H W p.1 p.2 && (i =? p.1) && (j =? p.2)) cells
                   = in_bounds H W i j && in_brush b row col i j).
    { apply eq_true_iff_eq. rewrite existsb_exists, !andb_true_iff. split.
      - intros (p & Hp & Hpe).
        apply in_concat in Hp as (l & Hl & Hp).
        apply in_map_iff in Hl as (r & <- & Hr).
        apply in_map_iff in Hp as (c & <- & Hc0).
        apply zrange_In in Hr, Hc0. simpl in Hpe.
        rewrite !andb_true_iff, !Z.eqb_eq in Hpe. destruct Hpe as [[Hb ->] ->].
        split; [done|]. unfold in_brush.
        rewrite !andb_true_iff, !Z.leb_le, !Z.ltb_lt. lia.
      - intros [Hb Hbr].
        unfold in_brush in Hbr. rewrite !andb_true_iff, !Z.leb_le, !Z.ltb_lt in Hbr.
        exists (i, j). split.
        + apply in_concat. eexists. split.
          * apply in_map_iff. exists (i - row). split; [reflexivity|].
            apply zrange_In. lia.
          * apply in_map_iff. exists (j - col). split; [f_equal; lia|].
            apply zrange_In. lia.
        + simpl. rewrite Hb, !Z.eqb_refl. done. }
    by rewrite Hiff.
  Qed.
End Stamp.

(* ------------------------------------------------------------------ *)
(** ** Brush stamping *)

Ltac bool_to_Z := repeat rewrite ?andb_true_iff, ?Z.leb_le, ?Z.ltb_lt in *.

(** C5. For any brush size and any in-range target cell, one pencil or
    eraser [drawPixel] writes the paint color (current color, or white for
    the eraser) into exactly the in-bounds cells of the square
    [[row - b/2, row - b/2 + b) x [col - b/2, col - b/2 + b)] and leaves every
    other cell as it was. Instances: [b = 3] at [(5,5)] on a grid of at least
    7x7 covers exactly [(4..6, 4..6)]; [b = 3] at [(0,0)] covers only the 4
    in-bounds cells [(0..1, 0..1)]; [b = 2] at [(5,5)] covers rows and
    columns [4..5]. *)
Theorem drawPixel_brush_square (s : Editor) (row col : Z) :
  wf_grid (gridHeight s) (gridWidth s) (grid s) ->
  is_brush_tool (currentTool s) = true ->
  in_bounds (gridHeight s) (gridWidth s) row col = true ->
  (exists s', drawPixel s row col = Some s' /\
    forall i j, cell (grid s') i j =
      if in_bounds (gridHeight s) (gridWidth s) i j && in_brush (brushSize s) row col i j
      then Some (match currentTool s with pencil => currentColor s | _ => WHITE end)
      else cell (grid s) i j) /\
  (forall H W i j, 7 <= H -> 7 <= W ->
     in_bounds H W i j && in_brush 3 5 5 i j = true <-> 4 <= i <= 6 /\ 4 <= j <= 6) /\
  (forall H W i j, 2 <= H -> 2 <= W ->
     in_bounds H W i j && in_brush 3 0 0 i j = true <-> 0 <= i <= 1 /\ 0 <= j <= 1) /\
  (forall H W i j, 6 <= H -> 6 <= W ->
     in_bounds H W i j && in_brush 2 5 5 i j = true <-> 4 <= i <= 5 /\ 4 <= j <= 5).
Proof.
  intros Hwf Htool Hb.
  split; [|split; [|split]];
    try (intros H W i j HH HW; unfold in_bounds, in_brush;
         change (3 / 2) with 1; change (2 / 2) with 1; bool_to_Z; lia).
  destruct (stamp_cell (gridHeight s) (gridWidth s)
              (match currentTool s with pencil => currentColor s | _ => WHITE end)
              (brushSize s) row col (grid s) Hwf) as [_ Hc].
  unfold drawPixel. rewrite Hb. simpl.
  destruct (currentTool s) eqn:Et; try discriminate; eexists; (split; [reflexivity|]); exact Hc.
Qed.

(* ------------------------------------------------------------------ *)
(** ** Bresenham interpolation *)

Lemma line_loop_shape (fuel : nat) (row1 col1 dx dy sx sy cr cc err : Z) (l : list (Z * Z)) :
  Z.abs sx = 1 -> Z.abs sy = 1 ->
  line_loop fuel row1 col1 dx dy sx sy cr cc err = Some l ->
  head l = Some (cr, cc) /\ last l = Some (row1, col1) /\ steps_ok l.
Proof.
  intros Hsx Hsy. revert cr cc err l.
  induction fuel as [|fuel IH]; intros cr cc err l Hl; simpl in Hl; [discriminate|].
  destruct ((cr =? row1) && (cc =? col1)) eqn:Eend.
  - injection Hl as <-. apply andb_true_iff in Eend as [E1 E2].
    apply Z.eqb_eq in E1, E2. subst. simpl. done.
  - destruct (line_loop fuel _ _ _ _ _ _ _ _ _) as [l'|] eqn:Erec; simpl in Hl; [|discriminate].
    injection Hl as <-.
    destruct (IH _ _ _ _ Erec) as (Hh & Hlast & Hsteps).
    destruct l' as [|q l']; [discriminate|].
    simpl in Hh. injection Hh as Hq.
    split; [done|split].
    + rewrite last_cons. rewrite Hlast. done.
    + subst q. simpl.
      destruct (-dy <? 2 * err), (2 * err <? dx); simpl; (split; [lia|split; [lia|exact Hsteps]]).
Qed.

(** The loop is symmetric in the two axes: exchanging rows and columns
    and negating the error term gives the mirrored run. *)
Lemma line_loop_swap (fuel : nat) (row1 col1 dx dy sx sy cr cc err : Z) :
  line_loop fuel row1 col1 dx dy sx sy cr cc err =
  option_map (map (fun p : Z * Z => (p.2, p.1)))
    (line_loop fuel col1 row1 dy dx sy sx cc cr (- err)).
Proof.
  revert cr cc err. induction fuel as [|fuel IH]; intros cr cc err; simpl; [done|].
  rewrite (andb_comm (cc =? col1)).
  destruct ((cr =? row1) && (cc =? col1)); [done|].
  rewrite IH.
  replace (- dx <? 2 * - err) with (2 * err <? dx) by (apply eq_true_iff_eq; bool_to_Z; lia).
  replace (2 * - err <? dy) with (- dy <? 2 * err) by (apply eq_true_iff_eq; bool_to_Z; lia).
  destruct (- dy <? 2 * err), (2 * err <? dx); simpl.
  all: lazymatch goal with
       | |- option_map _ (option_map _ (line_loop ?f ?a ?b ?c ?d ?e ?g ?h ?i ?x)) =
            option_map _ (option_map _ (line_loop _ _ _ _ _ _ _ _ _ ?y)) =>
           replace x with y by lia; destruct (line_loop f a b c d e g h i y); reflexivity
       end.
Qed.

Section Major.
  (** Runs whose column distance dominates: every iteration steps the
      column; [x] and [y] count the column and row steps taken so far. *)
Variables (row0 col0 dx dy sx sy : Z).
Hypotheses (Hdom : 0 <= dy <= dx) (Hdx : 0 < dx) (Hsx : Z.abs sx = 1).

Lemma line_loop_major (n fuel : nat) (x y cr cc err : Z) :
    x + Z.of_nat n = dx -> 0 <= x ->
    cr = row0 + sy * y -> cc = col0 + sx * x ->
    err = dx * (1 + y) - dy * (1 + x) ->
    - dy < 2 * err < 3 * dx - 2 * dy ->
    (n < fuel)%nat ->
    exists l, line_loop fuel (row0 + sy * dy) (col0 + sx * dx) dx dy sx sy cr cc err = Some l
              /\ length l = S n.
  Proof.
    revert fuel x y cr cc err.
    induction n as [|n IH]; intros fuel x y cr cc err Hx Hx0 Hcr Hcc Herr Hinv Hfuel;
      (destruct fuel as [|fuel]; [lia|]); simpl.
    - assert (Hy : y = dy).
      { subst err. assert (x = dx) by lia. subst x.
        destruct (Z.lt_trichotomy y dy) as [Hlt|[Heq|Hgt]]; [nia|done|nia]. }
      assert (x = dx) by lia. subst x y cr cc.
      rewrite !Z.eqb_refl. simpl. eexists; split; reflexivity.
    - assert (Hne : (cc =? col0 + sx * dx) = false).
      { apply Z.eqb_neq. subst cc. destruct (Z.abs_spec sx) as [[_ E]|[_ E]]; nia. }
      rewrite Hne, andb_false_r.
      replace (- dy <? 2 * err) with true by (symmetry; bool_to_Z; lia).
      destruct (2 * err <? dx) eqn:Erow; bool_to_Z.
      + destruct (IH fuel (x + 1) (y + 1) (cr + sy) (cc + sx) (err - dy + dx))
          as (l & Hl & Hlen); try lia.
        rewrite Hl. simpl. eexists; split; [reflexivity|]. simpl. lia.
      + assert (dy < dx) by lia.
        destruct (IH fuel (x + 1) y cr (cc + sx) (err - dy))
          as (l & Hl & Hlen); try lia.
        rewrite Hl. simpl. eexists; split; [reflexivity|]. simpl. lia.
  Qed.
End Major.

Lemma drawLine_cells_length (row0 col0 row1 col1 : Z) :
  exists l, drawLine_cells row0 col0 row1 col1 = Some l /\
    length l = S (Z.to_nat (Z.max (Z.abs (col1 - col0)) (Z.abs (row1 - row0)))).
Proof.
  unfold drawLine_cells.
  remember (Z.abs (col1 - col0)) as dx eqn:Edx.
  remember (Z.abs (row1 - row0)) as dy eqn:Edy.
  remember (if col0 <? col1 then 1 else -1) as sx eqn:Esx.
  remember (if row0 <? row1 then 1 else -1) as sy eqn:Esy.
  assert (Hsx : Z.abs sx = 1) by (subst sx; destruct (col0 <? col1); reflexivity).
  assert (Hsy : Z.abs sy = 1) by (subst sy; destruct (row0 <? row1); reflexivity).
  assert (E1 : row1 = row0 + sy * dy).
  { subst sy dy. destruct (Z.ltb_spec row0 row1); lia. }
  assert (E2 : col1 = col0 + sx * dx).
  { subst sx dx. destruct (Z.ltb_spec col0 col1); lia. }
  assert (Hdx : 0 <= dx) by (subst dx; apply Z.abs_nonneg).
  assert (Hdy : 0 <= dy) by (subst dy; apply Z.abs_nonneg).
  clear Edx Edy Esx Esy. subst row1 col1.
  destruct (Z.eq_dec dx 0) as [Hx0|Hx0]; destruct (Z.eq_dec dy 0) as [Hy0|Hy0].
  - rewrite Hx0, Hy0, !Z.mul_0_r, !Z.add_0_r. simpl. rewrite !Z.eqb_refl. simpl.
    eexists; split; [reflexivity|]. reflexivity.
  - rewrite line_loop_swap.
    destruct (line_loop_major col0 row0 dy dx sy sx ltac:(lia) ltac:(lia) Hsy
                (Z.to_nat dy) (S (Z.to_nat (dx + dy))) 0 0 col0 row0 (- (dx - dy)))
      as (l & Hl & Hlen); try lia.
    rewrite Hl. simpl. eexists; split; [reflexivity|].
    rewrite length_map, Hlen. lia.
  - destruct (line_loop_major row0 col0 dx dy sx sy ltac:(lia) ltac:(lia) Hsx
                (Z.to_nat dx) (S (Z.to_nat (dx + dy))) 0 0 row0 col0 (dx - dy))
      as (l & Hl & Hlen); try lia.
    rewrite Hl. eexists; split; [reflexivity|]. lia.
  - destruct (Z.le_gt_cases dy dx).
    + destruct (line_loop_major row0 col0 dx dy sx sy ltac:(lia) ltac:(lia) Hsx
                  (Z.to_nat dx) (S (Z.to_nat (dx + dy))) 0 0 row0 col0 (dx - dy))
        as (l & Hl & Hlen); try lia.
      rewrite Hl. eexists; split; [reflexivity|]. lia.
    + rewrite line_loop_swap.
      destruct (line_loop_major col0 row0 dy dx sy sx ltac:(lia) ltac:(lia) Hsy
                  (Z.to_nat dy) (S (Z.to_nat (dx + dy))) 0 0 col0 row0 (- (dx - dy)))
        as (l & Hl & Hlen); try lia.
      rewrite Hl. simpl. eexists; split; [reflexivity|].
      rewrite length_map, Hlen. lia.
Qed.

(** C4. For every pair of cells, [drawLine] visits a finite ordered
    sequence that starts at [(row0, col0)], ends at [(row1, col1)], moves at
    most one row and one column per step, and has exactly
    [max(|col1 - col0|, |row1 - row0|) + 1] cells (so at most that many);
    from [(0,0)] to [(5,5)] it is the diagonal and from [(0,0)] to [(0,5)]
    the row segment. *)
Theorem drawLine_cells_spec (row0 col0 row1 col1 : Z) :
  (exists l, drawLine_cells row0 col0 row1 col1 = Some l /\
     head l = Some (row0, col0) /\ last l = Some (row1, col1) /\ steps_ok l /\
     length l = S (Z.to_nat (Z.max (Z.abs (col1 - col0)) (Z.abs (row1 - row0))))) /\
  drawLine_cells 0 0 5 5 = Some [(0, 0); (1, 1); (2, 2); (3, 3); (4, 4); (5, 5)] /\
  drawLine_cells 0 0 0 5 = Some [(0, 0); (0, 1); (0, 2); (0, 3); (0, 4); (0, 5)].
Proof.
  split; [|split; reflexivity].
  destruct (drawLine_cells_length row0 col0 row1 col1) as (l & Hl & Hlen).
  exists l. split; [done|].
  assert (Hshape := Hl). unfold drawLine_cells in Hshape.
  apply line_loop_shape in Hshape as (Hh & Hlast & Hst);
    [| destruct (col0 <? col1); reflexivity | destruct (row0 <? row1); reflexivity].
  done.
Qed.

(* ------------------------------------------------------------------ *)
(** ** History stack *)

Lemma last_n_app {A} (n : nat) (x y : list A) :
  last_n n (last_n n x ++ y) = last_n n (x ++ y).
Proof.
  unfold last_n. rewrite <- drop_app_le by lia.
  rewrite drop_drop, length_app, length_drop, length_app. f_equal. lia.
Qed.

Lemma last_n_small {A} (n : nat) (x : list A) : (length x <= n)%nat -> last_n n x = x.
Proof. intros Hx. unfold last_n. replace (length x - n)%nat with 0%nat by lia. done. Qed.

Lemma length_last_n {A} (n : nat) (x : list A) : length (last_n n x) = Nat.min (length x) n.
Proof. unfold last_n. rewrite length_drop. lia. Qed.

(** [saveState] with the cursor at the newest entry. *)
Lemma saveState_newest (L : list Grid) (g : Grid) :
  (1 <= length L <= 50)%nat ->
  saveState g (mkHistory L (Z.of_nat (length L) - 1)) =
  mkHistory (last_n 50 (L ++ [g])) (Z.of_nat (Nat.min (length L + 1) 50) - 1).
Proof.
  intros HL. unfold saveState. simpl.
  rewrite take_ge by lia. rewrite length_app. simpl.
  unfold MAX_HISTORY. destruct (Z.ltb_spec 50 (Z.of_nat (length L + 1))).
  - unfold last_n. rewrite length_app. simpl.
    replace (length L + 1 - 50)%nat with 1%nat by lia. f_equal. lia.
  - rewrite last_n_small by (rewrite length_app; simpl; lia). f_equal. lia.
Qed.

Lemma save_all_newest (gs L : list Grid) :
  (1 <= length L <= 50)%nat ->
  save_all gs (mkHistory L (Z.of_nat (length L) - 1)) =
  mkHistory (last_n 50 (L ++ gs)) (Z.of_nat (Nat.min (length L + length gs) 50) - 1).
Proof.
  revert L. induction gs as [|g gs IH]; intros L HL; simpl.
  - rewrite app_nil_r, last_n_small by lia. f_equal. lia.
  - unfold save_all in *. simpl. rewrite saveState_newest by done.
    replace (Z.of_nat (Nat.min (length L + 1) 50) - 1)
      with (Z.of_nat (length (last_n 50 (L ++ [g]))) - 1)
      by (rewrite length_last_n, length_app; simpl; lia).
    rewrite IH by (rewrite length_last_n, length_app; simpl; lia).
    rewrite last_n_app, <- app_assoc. simpl. f_equal.
    rewrite length_last_n, length_app. simpl. lia.
Qed.

Lemma undo_n_spec (L : list Grid) (n : nat) (i : Z) (g : Grid) :
  L !! Z.to_nat i = Some g -> 0 <= i -> Z.of_nat n <= i ->
  exists g', L !! Z.to_nat (i - Z.of_nat n) = Some g' /\
    undo_n n (mkHistory L i) g = Some (mkHistory L (i - Z.of_nat n), g').
Proof.
  revert i g. induction n as [|n IH]; intros i g Hg Hi Hn.
  - exists g. simpl. rewrite Z.sub_0_r. done.
  - simpl. unfold undo. simpl.
    replace (0 <? i) with true by (symmetry; bool_to_Z; lia).
    destruct (L !! Z.to_nat (i - 1)) as [s|] eqn:Es.
    + simpl. destruct (IH (i - 1) s Es ltac:(lia) ltac:(lia)) as (g' & Hg' & Hrun).
      exists g'. replace (i - Z.of_nat (S n)) with (i - 1 - Z.of_nat n) by lia.
      done.
    + apply lookup_ge_None in Es. apply lookup_lt_Some in Hg. lia.
Qed.

Lemma redo_n_spec (L : list Grid) (n : nat) (i : Z) (g : Grid) :
  L !! Z.to_nat i = Some g -> 0 <= i -> i + Z.of_nat n < Z.of_nat (length L) ->
  exists g', L !! Z.to_nat (i + Z.of_nat n) = Some g' /\
    redo_n n (mkHistory L i) g = Some (mkHistory L (i + Z.of_nat n), g').
Proof.
  revert i g. induction n as [|n IH]; intros i g Hg Hi Hn.
  - exists g. simpl. rewrite Z.add_0_r. done.
  - simpl. unfold redo. simpl.
    replace (i <? Z.of_nat (length L) - 1) with true by (symmetry; bool_to_Z; lia).
    destruct (L !! Z.to_nat (i + 1)) as [s|] eqn:Es.
    + simpl. destruct (IH (i + 1) s Es ltac:(lia) ltac:(lia)) as (g' & Hg' & Hrun).
      exists g'. replace (i + Z.of_nat (S n)) with (i + 1 + Z.of_nat n) by lia.
      done.
    + apply lookup_ge_None in Es. lia.
Qed.

Lemma lookup_length_last {A} (x d : A) (l : list A) :
  (x :: l) !! length l = Some (List.last (x :: l) d).
Proof.
  revert x. induction l as [|y l IH]; intros x; [done|].
  simpl length. rewrite lookup_cons, IH. done.
Qed.

Lemma saveState_empty (g : Grid) : saveState g (mkHistory [] (-1)) = mkHistory [g] 0.
Proof. reflexivity. Qed.

(** C6. After [initializeGrid] records the blank grid and [k < 50] further
    grids are recorded, the stack holds exactly these [k + 1] entries with the
    cursor on the last; [undo()] called [k] times restores the blank grid,
    then [redo()] called [k] times restores the last recorded grid and the
    same stack and cursor. [undo()] does nothing with the cursor at the
    oldest entry, [redo()] nothing with it at the newest. *)
Theorem history_undo_redo_roundtrip (blank : Grid) (gs : list Grid) :
  (length gs < 50)%nat ->
  let h := save_all gs (saveState blank (mkHistory [] (-1))) in
  let final := List.last (blank :: gs) blank in
  h = mkHistory (blank :: gs) (Z.of_nat (length gs)) /\
  undo_n (length gs) h final = Some (mkHistory (blank :: gs) 0, blank) /\
  redo_n (length gs) (mkHistory (blank :: gs) 0) blank = Some (h, final) /\
  (forall (h0 : History) (g : Grid), historyIndex h0 <= 0 -> undo h0 g = Some (h0, g)) /\
  (forall (h0 : History) (g : Grid), Z.of_nat (length (history h0)) - 1 <= historyIndex h0 ->
     redo h0 g = Some (h0, g)).
Proof.
  intros Hk h final.
  assert (Hh : h = mkHistory (blank :: gs) (Z.of_nat (length gs))).
  { subst h. rewrite saveState_empty.
    change 0 with (Z.of_nat (length [blank]) - 1).
    rewrite save_all_newest by (simpl; lia).
    rewrite last_n_small by (simpl; lia). f_equal. simpl. lia. }
  assert (Hlast : (blank :: gs) !! Z.to_nat (Z.of_nat (length gs)) = Some final).
  { rewrite Nat2Z.id. apply lookup_length_last. }
  split; [done|]. split; [|split; [|split]].
  - rewrite Hh.
    destruct (undo_n_spec (blank :: gs) (length gs) (Z.of_nat (length gs)) final Hlast
                ltac:(lia) ltac:(lia)) as (g' & Hg' & Hrun).
    rewrite Z.sub_diag in Hg', Hrun. simpl in Hg'. injection Hg' as <-. done.
  - destruct (redo_n_spec (blank :: gs) (length gs) 0 blank eq_refl
                ltac:(lia) ltac:(simpl; lia)) as (g' & Hg' & Hrun).
    rewrite Z.add_0_l in Hg', Hrun. rewrite Hlast in Hg'. injection Hg' as <-.
    rewrite Hrun, Hh. done.
  - intros h0 g Hi. unfold undo. replace (0 <? historyIndex h0) with false by (symmetry; bool_to_Z; lia).
    done.
  - intros h0 g Hi. unfold redo.
    replace (historyIndex h0 <? Z.of_nat (length (history h0)) - 1) with false
      by (symmetry; bool_to_Z; lia).
    done.
Qed.

Lemma saveState_wf (g : Grid) (h : History) : wf_history h -> wf_history (saveState g h).
Proof.
  destruct h as [L i]. unfold wf_history, saveState, MAX_HISTORY. simpl.
  intros [[-> ->]|[Hi HL]].
  - right. simpl. lia.
  - rewrite length_app, length_take. simpl.
    destruct (Z.ltb_spec 50 (Z.of_nat (Nat.min (Z.to_nat (i + 1)) (length L) + 1))); simpl.
    + right. rewrite length_drop, length_app, length_take. simpl. lia.
    + right. rewrite length_app, length_take. simpl. lia.
Qed.

Lemma undo_wf (h h' : History) (g g' : Grid) :
  wf_history h -> undo h g = Some (h', g') -> wf_history h'.
Proof.
  destruct h as [L i]. unfold wf_history, undo. simpl. intros Hwf.
  destruct (Z.ltb_spec 0 i).
  - destruct (L !! Z.to_nat (i - 1)); simpl; [|discriminate].
    intros [= <- _]. right. simpl. lia.
  - intros [= <- _]. done.
Qed.

Lemma redo_wf (h h' : History) (g g' : Grid) :
  wf_history h -> redo h g = Some (h', g') -> wf_history h'.
Proof.
  destruct h as [L i]. unfold wf_history, redo. simpl. intros Hwf.
  destruct (Z.ltb_spec i (Z.of_nat (length L) - 1)).
  - destruct (L !! Z.to_nat (i + 1)); simpl; [|discriminate].
    intros [= <- _]. right. simpl. destruct Hwf as [[-> ->]|]; simpl in *; lia.
  - intros [= <- _]. done.
Qed.

(** C7. The stack never holds more than [MAX_HISTORY = 50] entries:
    [saveState], [undo] and [redo] preserve the well-formed stacks (cursor
    inside, at most 50 entries). When pushing would exceed the bound, the
    oldest entry is shifted out and the cursor stays where it was. After
    [initializeGrid] and 60 recorded edits exactly 50 entries remain (the
    blank grid and the oldest 10 edits are evicted) and the cursor, at index
    49, points at the most recent edit. *)
Theorem history_capacity :
  (forall (g : Grid) (h : History), wf_history h -> wf_history (saveState g h)) /\
  (forall (h h' : History) (g g' : Grid), wf_history h -> undo h g = Some (h', g') -> wf_history h') /\
  (forall (h h' : History) (g g' : Grid), wf_history h -> redo h g = Some (h', g') -> wf_history h') /\
  (forall (g : Grid) (h : History),
     let hs := take (Z.to_nat (historyIndex h + 1)) (history h) ++ [g] in
     MAX_HISTORY < Z.of_nat (length hs) ->
     saveState g h = mkHistory (drop 1 hs) (historyIndex h)) /\
  (forall (blank : Grid) (gs : list Grid), length gs = 60%nat ->
     let h := save_all gs (saveState blank (mkHistory [] (-1))) in
     history h = drop 10 gs /\ length (history h) = 50%nat /\ historyIndex h = 49 /\
     history h !! Z.to_nat (historyIndex h) = Some (List.last gs blank)).
Proof.
  split; [exact saveState_wf|]. split; [exact undo_wf|]. split; [exact redo_wf|].
  split.
  - intros g h hs Hover. unfold saveState. fold hs.
    replace (MAX_HISTORY <? Z.of_nat (length hs)) with true by (symmetry; bool_to_Z; lia).
    done.
  - intros blank gs Hlen h.
    assert (Hh : h = mkHistory (drop 10 gs) 49).
    { subst h. rewrite saveState_empty.
      change 0 with (Z.of_nat (length [blank]) - 1).
      rewrite save_all_newest by (simpl; lia). simpl.
      unfold last_n. simpl length. rewrite Hlen. simpl. reflexivity. }
    rewrite Hh. simpl. split; [done|]. split; [rewrite length_drop; lia|]. split; [done|].
    rewrite lookup_drop.
    destruct gs as [|x gs']; [discriminate|]. simpl in Hlen. injection Hlen as Hlen.
    replace (10 + Z.to_nat 49)%nat with (length gs') by lia.
    apply lookup_length_last.
Qed.

(* ------------------------------------------------------------------ *)
(** ** Color history *)

Lemma In_take {A} (n : nat) (l : list A) (x : A) : In x (take n l) -> In x l.
Proof.
  revert n. induction l as [|y l IH]; intros [|n]; simpl; try tauto.
  intros [->|H]; [left; done|right; eauto].
Qed.

Lemma NoDup_take' {A} (n : nat) (l : list A) : List.NoDup l -> List.NoDup (take n l).
Proof.
  revert n. induction l as [|y l IH]; intros [|n] Hl; simpl; [constructor..|].
  inversion Hl as [|? ? Hy Hl']; subst. constructor.
  - intros Hin. apply Hy. eapply In_take; eauto.
  - eauto.
Qed.

Lemma filter_all_true {A} (f : A -> bool) (l : list A) :
  (forall x, In x l -> f x = true) -> List.filter f l = l.
Proof.
  induction l as [|y l IH]; intros Hall; simpl; [done|].
  rewrite Hall by (left; done). f_equal. apply IH. intros x Hx. apply Hall. right. done.
Qed.

Lemma take_pred_removelast {A} (l : list A) : take (length l - 1) l = removelast l.
Proof.
  induction l as [|y l IH]; [done|]. destruct l as [|z l]; [done|].
  change (removelast (y :: z :: l)) with (y :: removelast (z :: l)).
  rewrite <- IH. simpl. rewrite !Nat.sub_0_r. done.
Qed.

Lemma length_filter_remove (color : Color) (ch : list Color) :
  List.NoDup ch -> In color ch ->
  length (List.filter (fun c => negb (String.eqb c color)) ch) = (length ch - 1)%nat.
Proof.
  induction ch as [|y ch IH]; intros Hnd Hin; [destruct Hin|].
  inversion Hnd as [|? ? Hy Hnd']; subst. simpl.
  destruct (String.eqb_spec y color) as [->|Hne]; simpl.
  - rewrite filter_all_true; [lia|].
    intros x Hx. apply negb_true_iff, String.eqb_neq. intros ->. done.
  - destruct Hin as [->|Hin]; [done|]. rewrite IH by done.
    destruct ch; [destruct Hin|]. simpl. lia.
Qed.

(** C8. From a duplicate-free color history of at most 20 entries,
    [addToColorHistory color] again gives a duplicate-free list of at most
    20 entries with [color] at the front: an already-present color is moved
    to the front (the others keep their order and the length is unchanged);
    a new color is put in front of the whole list when there is room, and
    in front of all but the last (least recently used) entry when there
    are already 20. The initial history [[#000000, #FFFFFF]] is such a
    list. *)
Theorem addToColorHistory_spec (color : Color) (ch : list Color) :
  List.NoDup ch -> (length ch <= 20)%nat ->
  let ch' := addToColorHistory color ch in
  List.NoDup ch' /\ (length ch' <= 20)%nat /\ head ch' = Some color /\
  (In color ch ->
     ch' = color :: List.filter (fun c => negb (String.eqb c color)) ch /\
     length ch' = length ch) /\
  (~ In color ch -> (length ch < 20)%nat -> ch' = color :: ch) /\
  (~ In color ch -> length ch = 20%nat -> ch' = color :: removelast ch) /\
  List.NoDup [BLACK; WHITE].
Proof.
  intros Hnd Hlen ch'.
  assert (Hnd' : List.NoDup (color :: List.filter (fun c => negb (String.eqb c color)) ch)).
  { constructor.
    - intros Hin. apply filter_In in Hin as [_ Hf].
      rewrite String.eqb_refl in Hf. discriminate.
    - apply List.NoDup_filter. done. }
  split; [apply NoDup_take'; done|].
  split; [subst ch'; unfold addToColorHistory; rewrite length_take; lia|].
  split; [done|].
  split; [|split; [|split]].
  - intros Hin.
    unfold ch', addToColorHistory.
    assert (Hle : (length (color :: List.filter (fun c => negb (String.eqb c color)) ch) <= 20)%nat).
    { simpl. rewrite length_filter_remove by done. lia. }
    rewrite take_ge by done. split; [done|].
    simpl. rewrite length_filter_remove by done. destruct ch; [destruct Hin|]. simpl. lia.
  - intros Hnin Hlt. unfold ch', addToColorHistory.
    rewrite filter_all_true.
    + rewrite take_ge by (simpl; lia). done.
    + intros x Hx. apply negb_true_iff, String.eqb_neq. intros ->. done.
  - intros Hnin Heq. unfold ch', addToColorHistory.
    rewrite filter_all_true.
    + change (take 20 (color :: ch)) with (color :: take 19 ch). f_equal.
      rewrite <- take_pred_removelast, Heq. done.
    + intros x Hx. apply negb_true_iff, String.eqb_neq. intros ->. done.
  - repeat constructor; simpl; [intros [H|[]]; discriminate|intros []].
Qed.

(* ------------------------------------------------------------------ *)
(** ** Flood fill: termination *)

Lemma count_line_insert (t rep : Color) (line : list Color) (k : nat) :
  line !! k = Some t -> t <> rep ->
  (length (List.filter (fun x => String.eqb x t) (<[k := rep]> line)) + 1 =
   length (List.filter (fun x => String.eqb x t) line))%nat.
Proof.
  intros Hk Hne. revert k Hk. induction line as [|y l IH]; intros [|k] Hk; try discriminate.
  - injection Hk as ->. simpl. rewrite String.eqb_refl.
    destruct (String.eqb_spec rep t); [congruence|]. simpl. lia.
  - simpl in Hk |- *. destruct (String.eqb y t); simpl; rewrite <- (IH k Hk); lia.
Qed.

Lemma count_set_cell (t rep : Color) (g : Grid) (r c : Z) :
  cell g r c = Some t -> t <> rep ->
  (count_color t (set_cell g r c rep) + 1 = count_color t g)%nat.
Proof.
  unfold cell, set_cell, count_color.
  destruct ((0 <=? r) && (0 <=? c)); [|discriminate].
  generalize (Z.to_nat r) as kr. generalize (Z.to_nat c) as kc.
  intros kc kr Hcell Hne. revert kr Hcell.
  induction g as [|line g IH]; intros [|kr] Hcell; try discriminate; simpl in Hcell |- *.
  - rewrite <- (count_line_insert t rep line kc Hcell Hne). lia.
  - change (list_alter ?f kr g) with (alter f kr g). rewrite <- (IH kr Hcell). lia.
Qed.

Lemma floodFill_fuel_ok (fuel : nat) (H W row col : Z) (t rep : Color) (g : Grid) :
  (count_color t g < fuel)%nat ->
  exists g', floodFill fuel H W row col t rep g = Some g' /\
             (count_color t g' <= count_color t g)%nat.
Proof.
  revert row col g. induction fuel as [|f IH]; intros row col g Hf; [lia|]. simpl.
  destruct (String.eqb_spec t rep) as [Heq|Hne]; [eauto|].
  destruct (in_bounds H W row col); simpl; [|eauto].
  destruct (cell g row col) as [x|] eqn:Ex; [|eauto].
  destruct (String.eqb_spec x t) as [->|]; simpl; [|eauto].
  pose proof (count_set_cell t rep g row col Ex Hne) as Hc1.
  destruct (IH (row - 1) col (set_cell g row col rep)) as (g2 & -> & H2); [lia|]. simpl.
  destruct (IH (row + 1) col g2) as (g3 & -> & H3); [lia|]. simpl.
  destruct (IH row (col - 1) g3) as (g4 & -> & H4); [lia|]. simpl.
  destruct (IH row (col + 1) g4) as (g5 & -> & H5); [lia|].
  exists g5. split; [done|lia].
Qed.

Lemma floodFill_S (f : nat) (H W row col : Z) (t rep : Color) (g : Grid) :
  floodFill (S f) H W row col t rep g =
  if String.eqb t rep then Some g else
  if negb (in_bounds H W row col) then Some g else
  match cell g row col with
  | Some x =>
      if negb (String.eqb x t) then Some g else
      g2 ← floodFill f H W (row - 1) col t rep (set_cell g row col rep);
      g3 ← floodFill f H W (row + 1) col t rep g2;
      g4 ← floodFill f H W row (col - 1) t rep g3;
      floodFill f H W row (col + 1) t rep g4
  | None => Some g
  end.
Proof. reflexivity. Qed.

Lemma floodFill_more_fuel (fuel : nat) (H W row col : Z) (t rep : Color) (g g' : Grid) :
  floodFill fuel H W row col t rep g = Some g' ->
  floodFill (S fuel) H W row col t rep g = Some g'.
Proof.
  revert row col g g'. induction fuel as [|f IH]; intros row col g g' Hrun; [discriminate|].
  rewrite floodFill_S in Hrun |- *.
  destruct (String.eqb t rep); [done|].
  destruct (in_bounds H W row col); simpl in *; [|done].
  destruct (cell g row col) as [x|]; [|done].
  destruct (String.eqb x t); simpl in *; [|done].
  destruct (floodFill f H W (row - 1) col t rep _) as [g2|] eqn:E2; [|discriminate].
  rewrite (IH _ _ _ _ E2). simpl in *.
  destruct (floodFill f H W (row + 1) col t rep g2) as [g3|] eqn:E3; [|discriminate].
  rewrite (IH _ _ _ _ E3). simpl in *.
  destruct (floodFill f H W row (col - 1) t rep g3) as [g4|] eqn:E4; [|discriminate].
  rewrite (IH _ _ _ _ E4). simpl in *.
  apply IH. done.
Qed.

(** C10. The recursive flood fill terminates on every grid, from every
    pair of coordinates and for every pair of colors: a recursion depth of
    one more than the number of target-colored cells is enough, every
    larger depth gives the same grid, and each repaint (which happens only
    on an in-range cell holding the target color, the colors being
    different) lowers the number of target-colored cells by exactly one. *)
Theorem floodFill_terminates (H W row col : Z) (t rep : Color) (g : Grid) :
  (exists g', floodFill (fill_fuel t g) H W row col t rep g = Some g' /\
     forall fuel, (fill_fuel t g <= fuel)%nat ->
       floodFill fuel H W row col t rep g = Some g') /\
  (forall (g0 : Grid) (r c : Z), cell g0 r c = Some t -> t <> rep ->
     (count_color t (set_cell g0 r c rep) + 1 = count_color t g0)%nat).
Proof.
  split; [|intros; apply count_set_cell; done].
  destruct (floodFill_fuel_ok (fill_fuel t g) H W row col t rep g) as (g' & Hg' & _).
  { unfold fill_fuel. lia. }
  exists g'. split; [done|].
  intros fuel Hfuel. induction Hfuel as [|fuel Hle IHle]; [done|].
  apply floodFill_more_fuel. done.
Qed.

(* ------------------------------------------------------------------ *)
(** ** Flood fill: what it paints *)

Lemma recolors_refl (t rep : Color) (g : Grid) : recolors t rep g g.
Proof. intros i j. left. done. Qed.

Lemma recolors_trans (t rep : Color) (g1 g2 g3 : Grid) :
  recolors t rep g1 g2 -> recolors t rep g2 g3 -> recolors t rep g1 g3.
Proof.
  intros H12 H23 i j.
  destruct (H12 i j) as [E12|[E1 E2]]; destruct (H23 i j) as [E23|[E2' E3]].
  - left. congruence.
  - right. split; congruence.
  - right. split; congruence.
  - right. split; congruence.
Qed.

Lemma recolors_not_target (t rep : Color) (g g' : Grid) (i j : Z) :
  recolors t rep g g' -> cell g i j <> Some t -> cell g' i j <> Some t.
Proof. intros R Hn. destruct (R i j) as [E|[E _]]; congruence. Qed.

Lemma recolors_set_cell (H W : Z) (t rep : Color) (g : Grid) (r c : Z) :
  wf_grid H W g -> in_bounds H W r c = true -> cell g r c = Some t ->
  recolors t rep g (set_cell g r c rep).
Proof.
  intros Hwf Hb Ht i j. rewrite (cell_set_cell H W) by done.
  destruct (Z.eqb_spec i r) as [->|]; destruct (Z.eqb_spec j c) as [->|]; simpl;
    auto.
Qed.

Lemma floodFill_recolors (fuel : nat) (H W row col : Z) (t rep : Color) (g g' : Grid) :
  wf_grid H W g -> floodFill fuel H W row col t rep g = Some g' ->
  wf_grid H W g' /\ recolors t rep g g'.
Proof.
  revert row col g g'. induction fuel as [|f IH]; intros row col g g' Hwf Hrun; [discriminate|].
  rewrite floodFill_S in Hrun.
  destruct (String.eqb t rep); [injection Hrun as <-; auto using recolors_refl|].
  destruct (in_bounds H W row col) eqn:Hb; simpl in Hrun; [|injection Hrun as <-; auto using recolors_refl].
  destruct (cell g row col) as [x|] eqn:Ex; [|injection Hrun as <-; auto using recolors_refl].
  destruct (String.eqb_spec x t) as [->|]; simpl in Hrun; [|injection Hrun as <-; auto using recolors_refl].
  pose proof (recolors_set_cell H W t rep g row col Hwf Hb Ex) as R1.
  pose proof (wf_set_cell H W g row col rep Hwf) as W1.
  destruct (floodFill f H W (row - 1) col t rep _) as [g2|] eqn:E2; [|discriminate]. simpl in Hrun.
  destruct (IH _ _ _ _ W1 E2) as [W2 R2].
  destruct (floodFill f H W (row + 1) col t rep g2) as [g3|] eqn:E3; [|discriminate]. simpl in Hrun.
  destruct (IH _ _ _ _ W2 E3) as [W3 R3].
  destruct (floodFill f H W row (col - 1) t rep g3) as [g4|] eqn:E4; [|discriminate]. simpl in Hrun.
  destruct (IH _ _ _ _ W3 E4) as [W4 R4].
  destruct (IH _ _ _ _ W4 Hrun) as [W5 R5].
  split; [done|].
  eapply recolors_trans; [exact R1|]. eapply recolors_trans; [exact R2|].
  eapply recolors_trans; [exact R3|]. eapply recolors_trans; [exact R4|exact R5].
Qed.

Lemma floodFill_start (fuel : nat) (H W row col : Z) (t rep : Color) (g g' : Grid) :
  t <> rep -> in_bounds H W row col = true -> wf_grid H W g ->
  floodFill fuel H W row col t rep g = Some g' -> cell g' row col <> Some t.
Proof.
  intros Hne Hb Hwf Hrun. destruct fuel as [|f]; [discriminate|].
  rewrite floodFill_S in Hrun.
  destruct (String.eqb_spec t rep); [congruence|]. rewrite Hb in Hrun. simpl in Hrun.
  destruct (cell g row col) as [x|] eqn:Ex; [|injection Hrun as <-; congruence].
  destruct (String.eqb_spec x t) as [->|Hx]; simpl in Hrun; [|injection Hrun as <-; congruence].
  pose proof (wf_set_cell H W g row col rep Hwf) as W1.
  assert (C1 : cell (set_cell g row col rep) row col = Some rep)
    by (rewrite (cell_set_cell H W) by done; rewrite !Z.eqb_refl; done).
  destruct (floodFill f H W (row - 1) col t rep _) as [g2|] eqn:E2; [|discriminate]. simpl in Hrun.
  destruct (floodFill_recolors _ _ _ _ _ _ _ _ _ W1 E2) as [W2 R2].
  destruct (floodFill f H W (row + 1) col t rep g2) as [g3|] eqn:E3; [|discriminate]. simpl in Hrun.
  destruct (floodFill_recolors _ _ _ _ _ _ _ _ _ W2 E3) as [W3 R3].
  destruct (floodFill f H W row (col - 1) t rep g3) as [g4|] eqn:E4; [|discriminate]. simpl in Hrun.
  destruct (floodFill_recolors _ _ _ _ _ _ _ _ _ W3 E4) as [W4 R4].
  destruct (floodFill_recolors _ _ _ _ _ _ _ _ _ W4 Hrun) as [W5 R5].
  eapply recolors_not_target; [exact R5|]. eapply recolors_not_target; [exact R4|].
  eapply recolors_not_target; [exact R3|]. eapply recolors_not_target; [exact R2|].
  congruence.
Qed.

Lemma fill_closed_trans (H W : Z) (t rep : Color) (g1 g2 g3 : Grid) :
  fill_closed H W t rep g1 g2 -> recolors t rep g1 g2 ->
  fill_closed H W t rep g2 g3 -> recolors t rep g2 g3 ->
  fill_closed H W t rep g1 g3.
Proof.
  intros C12 R12 C23 R23 i j i' j' E1 E3 Hadj Hb'.
  destruct (R12 i j) as [E2|[_ E2]].
  - apply (C23 i j); congruence.
  - destruct (R23 i j) as [E3'|[E2' _]].
    + eapply recolors_not_target; [exact R23|]. apply (C12 i j); congruence.
    + eapply recolors_not_target; [exact R23|]. apply (C12 i j); congruence.
Qed.

Lemma floodFill_closed (fuel : nat) (H W row col : Z) (t rep : Color) (g g' : Grid) :
  t <> rep -> wf_grid H W g -> floodFill fuel H W row col t rep g = Some g' ->
  fill_closed H W t rep g g'.
Proof.
  revert row col g g'. induction fuel as [|f IH]; intros row col g g' Hne Hwf Hrun; [discriminate|].
  assert (Hid : fill_closed H W t rep g g)
    by (intros i j i' j' E1 E2; congruence).
  rewrite floodFill_S in Hrun.
  destruct (String.eqb_spec t rep); [congruence|].
  destruct (in_bounds H W row col) eqn:Hb; simpl in Hrun; [|injection Hrun as <-; done].
  destruct (cell g row col) as [x|] eqn:Ex; [|injection Hrun as <-; done].
  destruct (String.eqb_spec x t) as [->|]; simpl in Hrun; [|injection Hrun as <-; done].
  pose proof (recolors_set_cell H W t rep g row col Hwf Hb Ex) as R1.
  pose proof (wf_set_cell H W g row col rep Hwf) as W1.
  set (g1 := set_cell g row col rep) in *.
  destruct (floodFill f H W (row - 1) col t rep g1) as [g2|] eqn:E2; [|discriminate]. simpl in Hrun.
  destruct (floodFill_recolors _ _ _ _ _ _ _ _ _ W1 E2) as [W2 R2].
  destruct (floodFill f H W (row + 1) col t rep g2) as [g3|] eqn:E3; [|discriminate]. simpl in Hrun.
  destruct (floodFill_recolors _ _ _ _ _ _ _ _ _ W2 E3) as [W3 R3].
  destruct (floodFill f H W row (col - 1) t rep g3) as [g4|] eqn:E4; [|discriminate]. simpl in Hrun.
  destruct (floodFill_recolors _ _ _ _ _ _ _ _ _ W3 E4) as [W4 R4].
  destruct (floodFill_recolors _ _ _ _ _ _ _ _ _ W4 Hrun) as [W5 R5].
  assert (C15 : fill_closed H W t rep g1 g').
  { eapply fill_closed_trans; [eapply IH; eauto|exact R2|clear E2|].
    2: eapply recolors_trans; [exact R3|eapply recolors_trans; [exact R4|exact R5]].
    eapply fill_closed_trans; [eapply IH; eauto|exact R3|clear E3|].
    2: eapply recolors_trans; [exact R4|exact R5].
    eapply fill_closed_trans; [eapply IH; eauto|exact R4|eapply IH; eauto|exact R5]. }
  intros i j i' j' Ei Ei' Hadj Hb'.
  destruct (Z.eqb_spec i row) as [Hi|Hi]; [destruct (Z.eqb_spec j col) as [Hj|Hj]|].
  - subst i j. destruct Hadj as [[-> ->]|[[-> ->]|[[-> ->]|[-> ->]]]].
    + eapply recolors_not_target; [exact R5|]. eapply recolors_not_target; [exact R4|].
      eapply recolors_not_target; [exact R3|]. exact (floodFill_start _ _ _ _ _ _ _ _ _ Hne Hb' W1 E2).
    + eapply recolors_not_target; [exact R5|]. eapply recolors_not_target; [exact R4|].
      exact (floodFill_start _ _ _ _ _ _ _ _ _ Hne Hb' W2 E3).
    + eapply recolors_not_target; [exact R5|].
      exact (floodFill_start _ _ _ _ _ _ _ _ _ Hne Hb' W3 E4).
    + exact (floodFill_start _ _ _ _ _ _ _ _ _ Hne Hb' W4 Hrun).
  - apply (C15 i j); [|done|done|done].
    unfold g1. rewrite (cell_set_cell H W) by done.
    destruct (Z.eqb_spec i row); [|congruence]. destruct (Z.eqb_spec j col); [congruence|].
    done.
  - apply (C15 i j); [|done|done|done].
    unfold g1. rewrite (cell_set_cell H W) by done.
    destruct (Z.eqb_spec i row); [congruence|]. done.
Qed.

(* ------------------------------------------------------------------ *)
(** ** Flood fill on a single-colour grid *)

Lemma wf_make_grid (H W : Z) (v : Color) : wf_grid H W (make_grid H W v).
Proof.
  unfold make_grid. split; [rewrite length_replicate; done|].
  intros i line Hl. apply lookup_replicate_1 in Hl as [-> _].
  rewrite length_replicate; done.
Qed.

Lemma cell_make_grid (H W : Z) (v : Color) (i j : Z) :
  in_bounds H W i j = true -> cell (make_grid H W v) i j = Some v.
Proof.
  unfold in_bounds, cell, make_grid. intros Hb. bool_to_Z.
  destruct (Z.leb_spec 0 i); [|lia]. destruct (Z.leb_spec 0 j); [|lia]. simpl.
  rewrite lookup_replicate_2 by lia. simpl. rewrite lookup_replicate_2 by lia. done.
Qed.

Lemma cell_in_bounds (H W : Z) (g : Grid) (i j : Z) :
  wf_grid H W g -> in_bounds H W i j = true -> exists v, cell g i j = Some v.
Proof.
  intros Hwf Hb. unfold in_bounds in Hb. bool_to_Z.
  destruct (wf_grid_row H W g i Hwf ltac:(lia)) as [line [Hl Hlen]].
  destruct (lookup_lt_is_Some_2 line (Z.to_nat j)) as [v Hv]; [lia|].
  exists v. unfold cell. destruct (Z.leb_spec 0 i); [|lia]. destruct (Z.leb_spec 0 j); [|lia].
  simpl. rewrite Hl. simpl. exact Hv.
Qed.

Lemma grid_ext (H W : Z) (g g' : Grid) :
  0 <= H -> 0 <= W -> wf_grid H W g -> wf_grid H W g' ->
  (forall i j, in_bounds H W i j = true -> cell g i j = cell g' i j) -> g = g'.
Proof.
  intros HH HW [Hl Hr] [Hl' Hr'] Hc. apply list_eq. intros i.
  destruct (decide (i < Z.to_nat H)%nat) as [Hi|Hi].
  - destruct (lookup_lt_is_Some_2 g i) as [line Hline]; [lia|].
    destruct (lookup_lt_is_Some_2 g' i) as [line' Hline']; [lia|].
    rewrite Hline, Hline'. f_equal. apply list_eq. intros j.
    pose proof (Hr _ _ Hline) as Hlen. pose proof (Hr' _ _ Hline') as Hlen'.
    destruct (decide (j < Z.to_nat W)%nat) as [Hj|Hj].
    + specialize (Hc (Z.of_nat i) (Z.of_nat j)). unfold cell, in_bounds in Hc.
      rewrite !Nat2Z.id, Hline, Hline' in Hc.
      destruct (Z.leb_spec 0 (Z.of_nat i)); [|lia]. destruct (Z.leb_spec 0 (Z.of_nat j)); [|lia].
      apply Hc. bool_to_Z. lia.
    + rewrite !lookup_ge_None_2 by lia. done.
  - rewrite !lookup_ge_None_2 by lia. done.
Qed.

Lemma spread (n : Z) (P : Z -> Z -> Prop) :
  (forall i j i' j', in_bounds n n i j = true -> in_bounds n n i' j' = true ->
     adjacent i j i' j' -> P i j -> P i' j') ->
  forall r c, in_bounds n n r c = true -> P r c ->
  forall i j, in_bounds n n i j = true -> P i j.
Proof.
  intros Hstep.
  assert (Hh : forall i j j', in_bounds n n i j = true -> in_bounds n n i j' = true ->
                 P i j -> P i j').
  { intros i j j' Hb Hb' Hp.
    assert (Hup : forall d : nat, forall k, k = j + Z.of_nat d -> in_bounds n n i k = true -> P i k).
    { induction d as [|d IHd]; intros k -> Hk; [rewrite Z.add_0_r; done|].
      apply (Hstep i (j + Z.of_nat d)); [unfold in_bounds in *; bool_to_Z; lia|done|
        unfold adjacent; lia|].
      apply IHd; [done|unfold in_bounds in *; bool_to_Z; lia]. }
    assert (Hdn : forall d : nat, forall k, k = j - Z.of_nat d -> in_bounds n n i k = true -> P i k).
    { induction d as [|d IHd]; intros k -> Hk; [rewrite Z.sub_0_r; done|].
      apply (Hstep i (j - Z.of_nat d)); [unfold in_bounds in *; bool_to_Z; lia|done|
        unfold adjacent; lia|].
      apply IHd; [done|unfold in_bounds in *; bool_to_Z; lia]. }
    destruct (Z.le_gt_cases j j').
    - apply (Hup (Z.to_nat (j' - j))); [lia|done].
    - apply (Hdn (Z.to_nat (j - j'))); [lia|done]. }
  assert (Hv : forall i i' j, in_bounds n n i j = true -> in_bounds n n i' j = true ->
                 P i j -> P i' j).
  { intros i i' j Hb Hb' Hp.
    assert (Hup : forall d : nat, forall k, k = i + Z.of_nat d -> in_bounds n n k j = true -> P k j).
    { induction d as [|d IHd]; intros k -> Hk; [rewrite Z.add_0_r; done|].
      apply (Hstep (i + Z.of_nat d) j); [unfold in_bounds in *; bool_to_Z; lia|done|
        unfold adjacent; lia|].
      apply IHd; [done|unfold in_bounds in *; bool_to_Z; lia]. }
    assert (Hdn : forall d : nat, forall k, k = i - Z.of_nat d -> in_bounds n n k j = true -> P k j).
    { induction d as [|d IHd]; intros k -> Hk; [rewrite Z.sub_0_r; done|].
      apply (Hstep (i - Z.of_nat d) j); [unfold in_bounds in *; bool_to_Z; lia|done|
        unfold adjacent; lia|].
      apply IHd; [done|unfold in_bounds in *; bool_to_Z; lia]. }
    destruct (Z.le_gt_cases i i').
    - apply (Hup (Z.to_nat (i' - i))); [lia|done].
    - apply (Hdn (Z.to_nat (i - i'))); [lia|done]. }
  intros r c Hb Hp i j Hij.
  apply (Hv r i j); [unfold in_bounds in *; bool_to_Z; lia|done|].
  apply (Hh r c j); [done|unfold in_bounds in *; bool_to_Z; lia|done].
Qed.

(** C9. On an [n] x [n] grid (8 <= n <= 64) whose cells all hold colour
    [a], [floodFill] started at any in-range cell with a replacement colour
    [rep <> a], with the fuel [fill_fuel] that bounds its recursion,
    returns the grid in which all [n*n] cells hold [rep]. *)
Theorem floodFill_uniform_grid (n : Z) (a rep : Color) (r c : Z) :
  8 <= n <= 64 -> in_bounds n n r c = true -> a <> rep ->
  floodFill (fill_fuel a (make_grid n n a)) n n r c a rep (make_grid n n a) =
  Some (make_grid n n rep).
Proof.
  intros Hn Hb Hne.
  destruct (floodFill_fuel_ok (fill_fuel a (make_grid n n a)) n n r c a rep (make_grid n n a))
    as [g' [E _]]; [unfold fill_fuel; lia|].
  rewrite E. f_equal.
  pose proof (wf_make_grid n n a) as W0.
  destruct (floodFill_recolors _ _ _ _ _ _ _ _ _ W0 E) as [W' R].
  pose proof (floodFill_closed _ _ _ _ _ _ _ _ _ Hne W0 E) as Cl.
  pose proof (floodFill_start _ _ _ _ _ _ _ _ _ Hne Hb W0 E) as Hs.
  apply (grid_ext n n); [lia|lia|done|apply wf_make_grid|].
  intros i j Hij. rewrite (cell_make_grid n n rep i j Hij).
  refine (spread n (fun i j => cell g' i j = Some rep) _ r c Hb _ i j Hij).
  - intros i0 j0 i1 j1 Hb0 Hb1 Hadj Hp.
    assert (Hn1 : cell g' i1 j1 <> Some a).
    { apply (Cl i0 j0 i1 j1); [apply cell_make_grid; done|done|done|done]. }
    destruct (R i1 j1) as [E1|[_ E1]]; [|done].
    rewrite (cell_make_grid n n a i1 j1 Hb1) in E1. congruence.
  - destruct (R r c) as [E1|[_ E1]]; [|done].
    rewrite (cell_make_grid n n a r c Hb) in E1. congruence.
Qed.

(* ------------------------------------------------------------------ *)
(** ** Clicks with the fill and eyedropper tools *)

Lemma floodFill_fill_fuel_some (H W row col : Z) (t rep : Color) (g : Grid) :
  exists g', floodFill (fill_fuel t g) H W row col t rep g = Some g'.
Proof.
  destruct (floodFill_fuel_ok (fill_fuel t g) H W row col t rep g) as [g' [E _]];
    [unfold fill_fuel; lia|eauto].
Qed.

Lemma drawPixel_fill (s : Editor) (row col : Z) :
  currentTool s = fill -> in_bounds (gridHeight s) (gridWidth s) row col = true ->
  exists g', drawPixel s row col =
    Some (saveState_ed (set_colorHistory (addToColorHistory (currentColor s) (colorHistory s))
                          (set_grid g' s))).
Proof.
  intros Ht Hb. unfold drawPixel. rewrite Hb, Ht. cbv [negb].
  destruct (cell (grid s) row col) as [t|].
  - destruct (floodFill_fill_fuel_some (gridHeight s) (gridWidth s) row col t
                (currentColor s) (grid s)) as [g' E].
    rewrite E. exists g'. reflexivity.
  - exists (grid s). reflexivity.
Qed.

Lemma floodFill_same_color (fuel : nat) (H W row col : Z) (t : Color) (g : Grid) :
  floodFill (S fuel) H W row col t t g = Some g.
Proof. rewrite floodFill_S, String.eqb_refl. reflexivity. Qed.

(** C1 (the fill part). A fill click (pointer-down then pointer-up on the
    canvas) records two snapshots of the filled grid: [drawPixel] calls
    [saveState] once, and [startDrawing] has set [isDrawing], so
    [stopDrawing] calls it again. On a fresh 8 x 8 editor the history grows
    from one entry to three. *)
Theorem fill_click_saves_twice (s : Editor) (row col : Z) :
  currentTool s = fill -> in_bounds (gridHeight s) (gridWidth s) row col = true ->
  (exists s', run s [MouseDown row col; MouseUp] = Some s' /\
     hist s' = saveState (grid s') (saveState (grid s') (hist s))) /\
  hist_len (set_tool fill (fresh_editor 8)) = 1%nat /\
  option_map hist_len (run (set_tool fill (fresh_editor 8)) [MouseDown 3 3; MouseUp]) = Some 3%nat.
Proof.
  intros Ht Hb. split; [|split; vm_compute; reflexivity].
  simpl. unfold startDrawing.
  destruct (drawPixel_fill (set_last (Some (row, col)) (set_drawing true s)) row col)
    as [g' E]; [exact Ht|exact Hb|].
  rewrite E. simpl. eexists. split; [reflexivity|]. reflexivity.
Qed.

(** C2 (amended). For an in-range cell of a well-formed grid, the
    eyedropper's [drawPixel] sets the active colour to the cell's colour,
    switches the tool to pencil and changes neither the grid nor the
    history; the click that performs it (pointer-down then pointer-up)
    ends with the same colour, tool and grid, and its release records one
    snapshot of the unchanged grid through [stopDrawing]. *)
Theorem eyedropper_pick (s : Editor) (row col : Z) :
  currentTool s = eyedropper ->
  wf_grid (gridHeight s) (gridWidth s) (grid s) ->
  in_bounds (gridHeight s) (gridWidth s) row col = true ->
  (exists s1, drawPixel s row col = Some s1 /\
     cell (grid s) row col = Some (currentColor s1) /\ currentTool s1 = pencil /\
     grid s1 = grid s /\ hist s1 = hist s) /\
  (exists s', run s [MouseDown row col; MouseUp] = Some s' /\
     cell (grid s) row col = Some (currentColor s') /\ currentTool s' = pencil /\
     grid s' = grid s /\ hist s' = saveState (grid s) (hist s)).
Proof.
  intros Ht Hwf Hb.
  destruct (cell_in_bounds _ _ _ _ _ Hwf Hb) as [c Hc].
  split.
  - unfold drawPixel. rewrite Hb, Ht. simpl. rewrite Hc. simpl.
    eexists. split; [reflexivity|]. simpl. auto.
  - simpl. unfold startDrawing, drawPixel. simpl. rewrite Hb, Ht. simpl. rewrite Hc. simpl.
    eexists. split; [reflexivity|]. simpl. auto.
Qed.

(** The counterexample to C2: on a fresh 8 x 8 editor with the eyedropper
    selected, the click at (3, 3) grows the history from one entry to two. *)
Lemma eyedropper_click_records_snapshot :
  hist_len (set_tool eyedropper (fresh_editor 8)) = 1%nat /\
  option_map hist_len (run (set_tool eyedropper (fresh_editor 8)) [MouseDown 3 3; MouseUp]) =
    Some 2%nat.
Proof. split; vm_compute; reflexivity. Qed.

(** C3 (amended). When the target cell already holds the active colour,
    [floodFill] returns the grid as it is, and the fill branch of
    [drawPixel] leaves every cell unchanged but still records one snapshot
    (of the unchanged grid), since it calls [saveState] after every fill. *)
Theorem fill_same_color (s : Editor) (row col : Z) :
  currentTool s = fill -> in_bounds (gridHeight s) (gridWidth s) row col = true ->
  cell (grid s) row col = Some (currentColor s) ->
  (forall fuel, floodFill (S fuel) (gridHeight s) (gridWidth s) row col
                  (currentColor s) (currentColor s) (grid s) = Some (grid s)) /\
  exists s', drawPixel s row col = Some s' /\ grid s' = grid s /\
             hist s' = saveState (grid s) (hist s).
Proof.
  intros Ht Hb Hc. split; [intros; apply floodFill_same_color|].
  unfold drawPixel. rewrite Hb, Ht. cbv [negb]. rewrite Hc. unfold fill_fuel.
  rewrite floodFill_same_color. simpl. eexists. split; [reflexivity|]. auto.
Qed.

(** The counterexample to C3: on a fresh 8 x 8 editor with the fill tool
    and the active colour white (the colour of every cell), the fill at
    (3, 3) leaves the grid unchanged and grows the history from one entry
    to two. *)
Lemma fill_same_color_records_snapshot :
  hist_len (set_color WHITE (set_tool fill (fresh_editor 8))) = 1%nat /\
  option_map (fun s => (grid s, hist_len s))
    (drawPixel (set_color WHITE (set_tool fill (fresh_editor 8))) 3 3) =
    Some (grid (fresh_editor 8), 2%nat).
Proof. split; vm_compute; reflexivity. Qed.

(* ------------------------------------------------------------------ *)
(** ** A pencil or eraser drag *)

Lemma drawPixel_brush_keeps (s s' : Editor) (row col : Z) :
  is_brush_tool (currentTool s) = true -> drawPixel s row col = Some s' ->
  hist s' = hist s /\ currentTool s' = currentTool s /\ isDrawing s' = isDrawing s.
Proof.
  intros Ht E. unfold drawPixel in E.
  destruct (in_bounds (gridHeight s) (gridWidth s) row col); simpl in E;
    [|injection E as <-; auto].
  destruct (currentTool s) eqn:Et; try discriminate; injection E as <-; simpl; auto.
Qed.

Lemma drawPixels_brush_keeps (cells : list (Z * Z)) (s s' : Editor) :
  is_brush_tool (currentTool s) = true -> drawPixels s cells = Some s' ->
  hist s' = hist s /\ currentTool s' = currentTool s /\ isDrawing s' = isDrawing s.
Proof.
  revert s. induction cells as [|[r c] cells IH]; intros s Ht E; simpl in E;
    [injection E as <-; auto|].
  destruct (drawPixel s r c) as [s1|] eqn:E1; simpl in E; [|discriminate].
  destruct (drawPixel_brush_keeps _ _ _ _ Ht E1) as (Hh & Ht1 & Hd1).
  rewrite <- Ht1 in Ht. destruct (IH s1 Ht E) as (Hh2 & Ht2 & Hd2).
  split; [congruence|split; congruence].
Qed.

Lemma mouseMove_brush_keeps (s s' : Editor) (b row col : Z) :
  is_brush_tool (currentTool s) = true -> isDrawing s = true ->
  onCanvasMouseMove s b row col = Some s' ->
  hist s' = hist s /\ currentTool s' = currentTool s /\ isDrawing s' = true.
Proof.
  intros Ht Hd E. unfold onCanvasMouseMove in E. rewrite Hd, Ht in E. simpl in E. rewrite Hd, Ht in E. simpl in E.
  destruct (b =? 1); [|injection E as <-; auto].
  destruct (lastDrawnPos s) as [[lr lc]|].
  - destruct (negb _); simpl in E.
    + unfold drawLine in E. destruct (drawLine_cells lr lc row col) as [cells|]; simpl in E;
        [|discriminate].
      destruct (drawPixels s cells) as [s2|] eqn:E2; simpl in E; [|discriminate].
      injection E as <-. destruct (drawPixels_brush_keeps _ _ _ Ht E2) as (Hh & Ht2 & Hd2).
      simpl. split; [done|split; congruence].
    + injection E as <-. simpl. auto.
  - destruct (drawPixel s row col) as [s2|] eqn:E2; simpl in E; [|discriminate].
    injection E as <-. destruct (drawPixel_brush_keeps _ _ _ _ Ht E2) as (Hh & Ht2 & Hd2).
    simpl. split; [done|split; congruence].
Qed.

Lemma run_app (s : Editor) (es1 es2 : list Event) :
  run s (es1 ++ es2) = (s1 ← run s es1; run s1 es2).
Proof.
  revert s. induction es1 as [|e es1 IH]; intros s; simpl; [done|].
  destruct (step s e); simpl; [apply IH|done].
Qed.

Lemma brush_drag_hist (s s' : Editor) (row col : Z) (moves : list (Z * Z * Z)) :
  is_brush_tool (currentTool s) = true ->
  run s (MouseDown row col :: map (fun '(b, r, c) => MouseMove b r c) moves ++ [MouseUp]) =
    Some s' ->
  hist s' = saveState (grid s') (hist s).
Proof.
  intros Ht E. simpl in E. unfold startDrawing in E.
  destruct (drawPixel _ row col) as [s1|] eqn:E1; simpl in E; [|discriminate].
  destruct (drawPixel_brush_keeps (set_last (Some (row, col)) (set_drawing true s)) s1 row col Ht E1) as (Hh1 & Ht1 & Hd1). simpl in Hh1, Ht1, Hd1.
  rewrite run_app in E.
  assert (Hmoves : forall ms s0 s2, is_brush_tool (currentTool s0) = true -> isDrawing s0 = true ->
            run s0 (map (fun '(b, r, c) => MouseMove b r c) ms) = Some s2 ->
            hist s2 = hist s0 /\ currentTool s2 = currentTool s0 /\ isDrawing s2 = true).
  { induction ms as [|[[b r] c] ms IH]; intros s0 s2 Ht0 Hd0 E0; simpl in E0;
      [injection E0 as <-; auto|].
    destruct (onCanvasMouseMove s0 b r c) as [s3|] eqn:E3; simpl in E0; [|discriminate].
    destruct (mouseMove_brush_keeps _ _ _ _ _ Ht0 Hd0 E3) as (Hh3 & Ht3 & Hd3).
    rewrite <- Ht3 in Ht0. destruct (IH _ _ Ht0 Hd3 E0) as (Hh4 & Ht4 & Hd4).
    split; [congruence|split; congruence]. }
  destruct (run s1 _) as [s2|] eqn:E2; simpl in E; [|discriminate].
  rewrite <- Ht1 in Ht.
  destruct (Hmoves _ _ _ Ht Hd1 E2) as (Hh2 & _ & Hd2).
  injection E as <-. unfold stopDrawing. rewrite Hd2. simpl. congruence.
Qed.

(** X1. A pencil or eraser drag (pointer-down, any pointer moves, then a
    release over the canvas) records exactly one snapshot, of the final
    grid, on top of the history it started from. *)
Theorem brush_drag_saves_once (s s' : Editor) (row col : Z) (moves : list (Z * Z * Z)) :
  is_brush_tool (currentTool s) = true ->
  run s (MouseDown row col :: map (fun '(b, r, c) => MouseMove b r c) moves ++ [MouseUp]) =
    Some s' ->
  hist s' = saveState (grid s') (hist s).
Proof. apply brush_drag_hist. Qed.

(* ------------------------------------------------------------------ *)
(** ** Instances on concrete inputs *)

(** C5 on the fresh 8 x 8 editor: a size-1 pencil stamp at (3, 3). *)
Lemma drawPixel_brush_square_witness :
  wf_grid (gridHeight (fresh_editor 8)) (gridWidth (fresh_editor 8)) (grid (fresh_editor 8)) /\
  is_brush_tool (currentTool (fresh_editor 8)) = true /\
  in_bounds (gridHeight (fresh_editor 8)) (gridWidth (fresh_editor 8)) 3 3 = true /\
  exists s', drawPixel (fresh_editor 8) 3 3 = Some s' /\
    cell (grid s') 3 3 = Some BLACK /\ cell (grid s') 3 4 = Some WHITE.
Proof.
  assert (Hwf : wf_grid (gridHeight (fresh_editor 8)) (gridWidth (fresh_editor 8))
                  (grid (fresh_editor 8))) by exact (wf_make_grid 8 8 WHITE).
  assert (Ht : is_brush_tool (currentTool (fresh_editor 8)) = true) by reflexivity.
  assert (Hb : in_bounds (gridHeight (fresh_editor 8)) (gridWidth (fresh_editor 8)) 3 3 = true)
    by reflexivity.
  split; [exact Hwf|split; [exact Ht|split; [exact Hb|]]].
  destruct (drawPixel_brush_square (fresh_editor 8) 3 3 Hwf Ht Hb) as [[s' [E Hc]] _].
  exists s'. split; [exact E|]. rewrite !Hc. split; vm_compute; reflexivity.
Defined.

(** C6 with a 2 x 2 blank grid and two recorded edits. *)
Lemma history_undo_redo_roundtrip_witness :
  (length [make_grid 2 2 BLACK; make_grid 2 2 WHITE] < 50)%nat /\
  undo_n 2 (save_all [make_grid 2 2 BLACK; make_grid 2 2 WHITE]
              (saveState (make_grid 2 2 WHITE) (mkHistory [] (-1)))) (make_grid 2 2 WHITE)
  = Some (mkHistory [make_grid 2 2 WHITE; make_grid 2 2 BLACK; make_grid 2 2 WHITE] 0,
          make_grid 2 2 WHITE).
Proof.
  split; [simpl; lia|].
  destruct (history_undo_redo_roundtrip (make_grid 2 2 WHITE)
              [make_grid 2 2 BLACK; make_grid 2 2 WHITE] ltac:(simpl; lia)) as (_ & Hu & _).
  exact Hu.
Defined.

(** C8: adding red to the initial colour history [BLACK; WHITE]. *)
Lemma addToColorHistory_spec_witness :
  List.NoDup [BLACK; WHITE] /\ (length [BLACK; WHITE] <= 20)%nat /\
  addToColorHistory "#FF0000" [BLACK; WHITE] = ["#FF0000"; BLACK; WHITE].
Proof.
  assert (Hnd : List.NoDup [BLACK; WHITE]).
  { constructor; [intros [Hc|[]]; discriminate|constructor; [intros []|constructor]]. }
  assert (Hl : (length [BLACK; WHITE] <= 20)%nat) by (simpl; lia).
  split; [exact Hnd|split; [exact Hl|]].
  destruct (addToColorHistory_spec "#FF0000" [BLACK; WHITE] Hnd Hl) as (_ & _ & _ & _ & Hnew & _).
  apply Hnew; [intros [Hc|[Hc|[]]]; discriminate|simpl; lia].
Defined.

(** C9 on an 8 x 8 white grid, filled black from (3, 3). *)
Lemma floodFill_uniform_grid_witness :
  (8 <= 8 <= 64 /\ in_bounds 8 8 3 3 = true /\ WHITE <> BLACK) /\
  floodFill (fill_fuel WHITE (make_grid 8 8 WHITE)) 8 8 3 3 WHITE BLACK (make_grid 8 8 WHITE) =
  Some (make_grid 8 8 BLACK).
Proof.
  split; [split; [lia|split; [reflexivity|discriminate]]|].
  apply floodFill_uniform_grid; [lia|reflexivity|discriminate].
Defined.

(** C1: the fill click at (3, 3) on the fresh 8 x 8 editor. *)
Lemma fill_click_saves_twice_witness :
  currentTool (set_tool fill (fresh_editor 8)) = fill /\
  in_bounds (gridHeight (set_tool fill (fresh_editor 8)))
    (gridWidth (set_tool fill (fresh_editor 8))) 3 3 = true /\
  exists s', run (set_tool fill (fresh_editor 8)) [MouseDown 3 3; MouseUp] = Some s' /\
    hist s' = saveState (grid s') (saveState (grid s') (hist (set_tool fill (fresh_editor 8)))).
Proof.
  split; [reflexivity|split; [reflexivity|]].
  apply (fill_click_saves_twice (set_tool fill (fresh_editor 8)) 3 3); reflexivity.
Defined.

(** C2: the eyedropper click at (3, 3) on the fresh 8 x 8 editor picks white. *)
Lemma eyedropper_pick_witness :
  exists s', run (set_tool eyedropper (fresh_editor 8)) [MouseDown 3 3; MouseUp] = Some s' /\
    currentColor s' = WHITE /\ currentTool s' = pencil /\
    grid s' = grid (fresh_editor 8).
Proof.
  destruct (eyedropper_pick (set_tool eyedropper (fresh_editor 8)) 3 3)
    as [_ (s' & E & Hc & Ht & Hg & _)];
    [reflexivity|exact (wf_make_grid 8 8 WHITE)|reflexivity|].
  exists s'. split; [exact E|]. split; [|auto].
  assert (Hw : cell (grid (set_tool eyedropper (fresh_editor 8))) 3 3 = Some WHITE)
    by (vm_compute; reflexivity).
  rewrite Hw in Hc. injection Hc as Hc. symmetry. exact Hc.
Defined.

(** C3: the white fill at (3, 3) on the fresh (white) 8 x 8 editor. *)
Lemma fill_same_color_witness :
  exists s', drawPixel (set_color WHITE (set_tool fill (fresh_editor 8))) 3 3 = Some s' /\
    grid s' = grid (fresh_editor 8).
Proof.
  destruct (fill_same_color (set_color WHITE (set_tool fill (fresh_editor 8))) 3 3)
    as [_ (s' & E & Hg & _)]; [reflexivity|reflexivity|vm_compute; reflexivity|].
  exists s'. split; [exact E|exact Hg].
Defined.

(** X1: a pencil drag from (3, 3) through (3, 4) to (5, 6) on the fresh
    8 x 8 editor. *)
Lemma brush_drag_saves_once_witness :
  exists s', run (fresh_editor 8)
               [MouseDown 3 3; MouseMove 1 3 4; MouseMove 1 5 6; MouseUp] = Some s' /\
    hist s' = saveState (grid s') (hist (fresh_editor 8)).
Proof.
  exists (match run (fresh_editor 8)
                  [MouseDown 3 3; MouseMove 1 3 4; MouseMove 1 5 6; MouseUp] with
          | Some s' => s' | None => fresh_editor 8 end).
  split; [vm_compute; reflexivity|].
  apply (brush_drag_saves_once (fresh_editor 8) _ 3 3 [(1, 3, 4); (1, 5, 6)]);
    [reflexivity|vm_compute; reflexivity].
Defined.

(* ------------------------------------------------------------------ *)
(** ** Canvas coordinates *)

(** X2. For a grid with at least one row and one column, the cell
    [getCanvasCoordinates] returns always lies on the grid, and a pointer
    already over a cell gets that cell back unchanged. *)
Theorem clampCoords_in_bounds (H W row col : Z) :
  1 <= H -> 1 <= W ->
  in_bounds H W (clampCoords H W row col).1 (clampCoords H W row col).2 = true /\
  (in_bounds H W row col = true -> clampCoords H W row col = (row, col)).
Proof.
  intros HH HW. unfold clampCoords, in_bounds. simpl. split.
  - bool_to_Z. lia.
  - intros Hb. bool_to_Z. f_equal; lia.
Qed.

(* ------------------------------------------------------------------ *)
(** ** Clearing the canvas *)

Lemma clear_rows_as_fold (H W : Z) (rs cs : list Z) (g : Grid) :
  (forall r, In r rs -> 0 <= r < H) -> (forall c, In c cs -> 0 <= c < W) ->
  fold_left (fun g row => fold_left (fun g col => set_cell g row col WHITE) cs g) rs g =
  fold_left (paint H W WHITE) (concat (map (fun r => map (fun c => (r, c)) cs) rs)) g.
Proof.
  intros Hrs Hcs. revert g. induction rs as [|r rs IH]; intros g; simpl; [done|].
  rewrite fold_left_app, fold_left_map_comm, IH by (intros; apply Hrs; simpl; auto).
  f_equal. clear IH. revert g. induction cs as [|c cs IHc]; intros g; simpl; [done|].
  rewrite IHc by (intros; apply Hcs; simpl; auto).
  f_equal. unfold paint. simpl.
  assert (Hr := Hrs r (or_introl eq_refl)). assert (Hc := Hcs c (or_introl eq_refl)).
  replace (in_bounds H W r c) with true; [done|].
  symmetry. unfold in_bounds. bool_to_Z. lia.
Qed.

Lemma clearCells_make_grid (H W : Z) (g : Grid) :
  0 <= H -> 0 <= W -> wf_grid H W g -> clearCells H W g = make_grid H W WHITE.
Proof.
  intros HH HW Hwf. unfold clearCells.
  rewrite (clear_rows_as_fold H W) by (intros x Hx; apply zrange_In in Hx; lia).
  destruct (fold_paint H W WHITE (concat (map (fun r => map (fun c => (r, c)) (zrange 0 W))
                                               (zrange 0 H))) g Hwf) as [Hw Hc].
  apply (grid_ext H W); [done|done|done|apply wf_make_grid|].
  intros i j Hb. rewrite Hc, cell_make_grid by done.
  replace (existsb _ _) with true; [done|]. symmetry.
  apply existsb_exists. exists (i, j). split.
  - apply in_concat. exists (map (fun c => (i, c)) (zrange 0 W)). split.
    + apply in_map_iff. exists i. split; [done|]. apply zrange_In.
      unfold in_bounds in Hb. bool_to_Z. lia.
    + apply in_map_iff. exists j. split; [done|]. apply zrange_In.
      unfold in_bounds in Hb. bool_to_Z. lia.
  - simpl. rewrite Hb, !Z.eqb_refl. done.
Qed.

(** X3. Clear followed by Confirm turns every cell of a well-formed grid
    white and records that white grid with one [saveState], leaving the
    other editor state as it was, and closes the dialog; Clear followed by
    Cancel (or a click on the overlay) changes nothing in the editor and
    closes the dialog. *)
Theorem clearGrid_confirm_cancel (a : App) :
  0 <= gridHeight (ed a) -> 0 <= gridWidth (ed a) ->
  wf_grid (gridHeight (ed a)) (gridWidth (ed a)) (grid (ed a)) ->
  let blank := make_grid (gridHeight (ed a)) (gridWidth (ed a)) WHITE in
  ed (confirmDialog (clearGrid a)) =
    set_hist (saveState blank (hist (ed a))) (set_grid blank (ed a)) /\
  dialogVisible (confirmDialog (clearGrid a)) = false /\
  ed (cancelDialog (clearGrid a)) = ed a /\
  dialogVisible (cancelDialog (clearGrid a)) = false.
Proof.
  intros HH HW Hwf blank. unfold confirmDialog, cancelDialog, clearGrid, showDialog. simpl.
  rewrite clearCells_make_grid by done. auto.
Qed.

(* ------------------------------------------------------------------ *)
(** ** Resizing the canvas *)

(** X4. Resize, typing a text that [parseInt] reads as a size [n] in
    [8, 64], then Confirm (or Enter) makes the editor an [n] x [n] white
    grid whose history holds exactly that grid, at index 0; colour, tool,
    brush size and colour history are kept, and the dialog is closed. *)
Theorem resizeGrid_valid (a : App) (v : string) (n : Z) :
  parseInt v = Some n -> 8 <= n <= 64 ->
  let a' := confirmDialog (typeInput v (resizeGrid a)) in
  gridHeight (ed a') = n /\ gridWidth (ed a') = n /\
  grid (ed a') = make_grid n n WHITE /\
  hist (ed a') = mkHistory [make_grid n n WHITE] 0 /\
  currentColor (ed a') = currentColor (ed a) /\ currentTool (ed a') = currentTool (ed a) /\
  brushSize (ed a') = brushSize (ed a) /\ colorHistory (ed a') = colorHistory (ed a) /\
  dialogVisible a' = false.
Proof.
  intros Hp Hn a'. subst a'.
  destruct v as [|c v']; [discriminate|].
  unfold confirmDialog, typeInput, resizeGrid, showDialog. simpl. rewrite Hp.
  replace ((n <? 8) || (64 <? n)) with false by (symmetry; apply orb_false_iff; split;
    [apply Z.ltb_ge|apply Z.ltb_ge]; lia).
  simpl. rewrite saveState_empty. simpl. repeat split.
Qed.

(** X5. Resize with a text that is not a number, is empty, or reads as a
    size outside [8, 64] changes nothing in the editor once confirmed, and
    no dialog remains visible: the "Invalid Input" / "Invalid Size" alert
    opened by the callback is closed by [confirmDialog] right after it.
    Resize followed by Cancel (or a click on the overlay) changes nothing
    either. *)
Theorem resizeGrid_rejected (a : App) (v : string) :
  (parseInt v = None \/ exists n, parseInt v = Some n /\ (n < 8 \/ 64 < n)) ->
  ed (confirmDialog (typeInput v (resizeGrid a))) = ed a /\
  dialogVisible (confirmDialog (typeInput v (resizeGrid a))) = false /\
  ed (cancelDialog (typeInput v (resizeGrid a))) = ed a /\
  dialogVisible (cancelDialog (typeInput v (resizeGrid a))) = false.
Proof.
  intros Hv. destruct v as [|c v']; [done|].
  unfold confirmDialog, cancelDialog, typeInput, resizeGrid, showDialog. simpl.
  destruct Hv as [->|(n & -> & Hn)]; [done|].
  replace ((n <? 8) || (64 <? n)) with true; [done|].
  symmetry. apply orb_true_iff. destruct Hn; [left|right]; apply Z.ltb_lt; lia.
Qed.

(* ------------------------------------------------------------------ *)
(** ** [parseInt] *)






(* ------------------------------------------------------------------ *)
(** ** Keyboard shortcuts *)

(** X7. A key event whose key is neither "z" nor "y" (in particular the
    upper-case "Z" and "Y"), or that has neither Ctrl nor Cmd held, leaves
    the editor unchanged. *)
Theorem onKeyDown_ignored (s : Editor) (event : KeyEvent) :
  (ctrlKey event || metaKey event = false \/ (key event <> "z" /\ key event <> "y")) ->
  onKeyDown s event = Some s.
Proof.
  intros Hk. unfold onKeyDown. destruct Hk as [->|[Hz Hy]]; [done|].
  apply String.eqb_neq in Hz, Hy. rewrite Hz, Hy. simpl.
  rewrite !andb_false_r. done.
Qed.

Lemma set_grid_hist_eta (s : Editor) : set_grid (grid s) (set_hist (hist s) s) = s.
Proof. destruct s. reflexivity. Qed.

(** X8. Ctrl+Z then Ctrl+Y gives back exactly the editor state when the
    history cursor is past the first entry and the grid is the entry under
    it; Ctrl+Y then Ctrl+Z does so when the cursor is before the last
    entry. *)
Theorem undo_redo_keys_roundtrip (s : Editor) :
  wf_history (hist s) ->
  history (hist s) !! Z.to_nat (historyIndex (hist s)) = Some (grid s) ->
  (0 < historyIndex (hist s) ->
     (s1 ← onKeyDown s (ctrl_key "z"); onKeyDown s1 (ctrl_key "y")) = Some s) /\
  (historyIndex (hist s) < Z.of_nat (length (history (hist s))) - 1 ->
     (s1 ← onKeyDown s (ctrl_key "y"); onKeyDown s1 (ctrl_key "z")) = Some s).
Proof.
  intros Hwf Hcur.
  destruct s as [H W g c t dr lp b [L i] ch]. simpl in *.
  assert (Hi : 0 <= i < Z.of_nat (length L)).
  { unfold wf_history in Hwf. simpl in Hwf.
    destruct Hwf as [[-> ->]|[Hi _]]; [simpl in Hcur; discriminate|done]. }
  split; intros Hlt.
  - destruct (lookup_lt_is_Some_2 L (Z.to_nat (i - 1))) as [g1 Hg1]; [lia|].
    unfold onKeyDown, undo_ed, redo_ed, undo, redo. simpl.
    destruct (Z.ltb_spec 0 i); [|lia]. rewrite Hg1. simpl.
    destruct (Z.ltb_spec (i - 1) (Z.of_nat (length L) - 1)); [|lia].
    replace (Z.to_nat (i - 1 + 1)) with (Z.to_nat i) by lia. rewrite Hcur. simpl.
    replace (i - 1 + 1) with i by lia. done.
  - destruct (lookup_lt_is_Some_2 L (Z.to_nat (i + 1))) as [g1 Hg1]; [lia|].
    unfold onKeyDown, undo_ed, redo_ed, undo, redo. simpl.
    destruct (Z.ltb_spec i (Z.of_nat (length L) - 1)); [|lia]. rewrite Hg1. simpl.
    destruct (Z.ltb_spec 0 (i + 1)); [|lia].
    replace (Z.to_nat (i + 1 - 1)) with (Z.to_nat i) by lia. rewrite Hcur. simpl.
    replace (i + 1 - 1) with i by lia. done.
Qed.

(* ------------------------------------------------------------------ *)
(** ** Undoing a gesture *)

Lemma saveState_facts (g : Grid) (L : list Grid) (i : Z) :
  wf_history (mkHistory L i) -> 0 <= i ->
  let h' := saveState g (mkHistory L i) in
  wf_history h' /\
  historyIndex h' = Z.of_nat (length (history h')) - 1 /\
  Z.min (i + 1) 49 <= historyIndex h' <= i + 1 /\
  history h' !! Z.to_nat (historyIndex h') = Some g /\
  (forall m, 0 <= m -> m + 1 <= historyIndex h' ->
     history h' !! Z.to_nat (historyIndex h' - 1 - m) = L !! Z.to_nat (i - m)).
Proof.
  intros Hwf Hi0 h'.
  assert (Hi : i < Z.of_nat (length L) /\ Z.of_nat (length L) <= MAX_HISTORY).
  { unfold wf_history in Hwf. simpl in Hwf. destruct Hwf as [[_ ->]|[? ?]]; lia. }
  pose proof (saveState_wf g _ Hwf) as Hwf'.
  unfold MAX_HISTORY in Hi.
  assert (Hlen : length (take (Z.to_nat (i + 1)) L ++ [g]) = S (Z.to_nat (i + 1))).
  { rewrite length_app, length_take. simpl. lia. }
  assert (Hlast : (take (Z.to_nat (i + 1)) L ++ [g]) !! Z.to_nat (i + 1) = Some g).
  { rewrite lookup_app_r by (rewrite length_take; lia).
    rewrite length_take. replace (Z.to_nat (i + 1) - Nat.min (Z.to_nat (i + 1)) (length L))%nat
      with O by lia. done. }
  assert (Hold : forall k, (k <= Z.to_nat i)%nat ->
            (take (Z.to_nat (i + 1)) L ++ [g]) !! k = L !! k).
  { intros k Hk. rewrite lookup_app_l by (rewrite length_take; lia).
    rewrite lookup_take. destruct (decide _); [done|lia]. }
  subst h'. split; [exact Hwf'|]. unfold saveState in *. simpl in *.
  unfold MAX_HISTORY in *. rewrite Hlen in *.
  destruct (Z.ltb_spec 50 (Z.of_nat (S (Z.to_nat (i + 1))))); simpl.
  - rewrite length_drop, Hlen. split; [lia|split; [lia|split]].
    + rewrite lookup_drop. replace (1 + Z.to_nat i)%nat with (Z.to_nat (i + 1)) by lia.
      exact Hlast.
    + intros m Hm Hmi. rewrite lookup_drop.
      replace (1 + Z.to_nat (i - 1 - m))%nat with (Z.to_nat (i - m)) by lia.
      apply Hold. lia.
  - rewrite Hlen. split; [lia|split; [lia|split]].
    + exact Hlast.
    + intros m Hm Hmi. replace (Z.to_nat (i + 1 - 1 - m)) with (Z.to_nat (i - m)) by lia.
      apply Hold. lia.
Qed.

Lemma undo_step (h : History) (g g1 : Grid) :
  0 < historyIndex h -> history h !! Z.to_nat (historyIndex h - 1) = Some g1 ->
  undo h g = Some (mkHistory (history h) (historyIndex h - 1), g1).
Proof.
  intros Hi Hl. unfold undo. destruct (Z.ltb_spec 0 (historyIndex h)); [|lia].
  rewrite Hl. done.
Qed.

Lemma wf_history_cursor (h : History) (g : Grid) :
  wf_history h -> history h !! Z.to_nat (historyIndex h) = Some g -> 0 <= historyIndex h.
Proof.
  destruct h as [L i]. unfold wf_history. simpl. intros [[-> ->]|[Hi _]] Hl; [discriminate|lia].
Qed.

(** The history after a [saveState] of [g] on a stack whose cursor entry
    holds [g0]. *)
Lemma saveState_sync (g g0 : Grid) (h : History) :
  wf_history h -> history h !! Z.to_nat (historyIndex h) = Some g0 ->
  let h' := saveState g h in
  wf_history h' /\ 0 < historyIndex h' /\
  historyIndex h' = Z.of_nat (length (history h')) - 1 /\
  Z.min (historyIndex h + 1) 49 <= historyIndex h' /\
  history h' !! Z.to_nat (historyIndex h') = Some g /\
  history h' !! Z.to_nat (historyIndex h' - 1) = Some g0.
Proof.
  intros Hwf Hc h'. pose proof (wf_history_cursor h g0 Hwf Hc) as Hi.
  destruct h as [L i]. simpl in *.
  destruct (saveState_facts g L i Hwf Hi) as (W' & Hn & Hb & Hcur & Hprev).
  subst h'. split; [done|split; [lia|split; [done|split; [lia|split; [done|]]]]].
  rewrite <- Hc. replace (historyIndex (saveState g {| history := L; historyIndex := i |}) - 1)
    with (historyIndex (saveState g {| history := L; historyIndex := i |}) - 1 - 0) by lia.
  replace (Z.to_nat i) with (Z.to_nat (i - 0)) by lia. apply Hprev; lia.
Qed.

Lemma ctrl_z (s : Editor) : onKeyDown s (ctrl_key "z") = undo_ed s.
Proof. reflexivity. Qed.

Lemma ctrl_y (s : Editor) : onKeyDown s (ctrl_key "y") = redo_ed s.
Proof. reflexivity. Qed.

(** X9. When the grid is the history entry under the cursor, a pencil or
    eraser drag followed by Ctrl+Z gives back the grid from before the
    drag, and Ctrl+Y then gives back the editor state right after the
    drag. *)
Theorem brush_drag_undo_redo (s s' : Editor) (row col : Z) (moves : list (Z * Z * Z)) :
  is_brush_tool (currentTool s) = true -> wf_history (hist s) ->
  history (hist s) !! Z.to_nat (historyIndex (hist s)) = Some (grid s) ->
  run s (MouseDown row col :: map (fun '(b, r, c) => MouseMove b r c) moves ++ [MouseUp]) =
    Some s' ->
  exists s1, onKeyDown s' (ctrl_key "z") = Some s1 /\ grid s1 = grid s /\
             onKeyDown s1 (ctrl_key "y") = Some s'.
Proof.
  intros Ht Hwf Hc Hrun.
  pose proof (brush_drag_hist s s' row col moves Ht Hrun) as Hh.
  destruct (saveState_sync (grid s') (grid s) (hist s) Hwf Hc) as (W' & Hpos & Hn & _ & Hcur & Hprev).
  rewrite <- Hh in W', Hpos, Hn, Hcur, Hprev.
  rewrite ctrl_z. unfold undo_ed. rewrite (undo_step _ _ _ Hpos Hprev). simpl.
  eexists. split; [reflexivity|]. split; [reflexivity|].
  rewrite ctrl_y. unfold redo_ed, redo. simpl.
  destruct (Z.ltb_spec (historyIndex (hist s') - 1) (Z.of_nat (length (history (hist s'))) - 1));
    [|lia].
  replace (Z.to_nat (historyIndex (hist s') - 1 + 1)) with (Z.to_nat (historyIndex (hist s')))
    by lia.
  rewrite Hcur. simpl. replace (historyIndex (hist s') - 1 + 1) with (historyIndex (hist s'))
    by lia.
  destruct s' as [H0 W0 g0 c0 t0 dr lp b0 [L i] ch]. reflexivity.
Qed.

(** X10. When the grid is the history entry under the cursor, the first
    Ctrl+Z after a fill click leaves the filled grid on screen (it steps
    back to the duplicate snapshot); a second Ctrl+Z is needed to get back
    the grid from before the fill. *)
Theorem fill_click_undo (s : Editor) (row col : Z) :
  currentTool s = fill -> in_bounds (gridHeight s) (gridWidth s) row col = true ->
  wf_history (hist s) ->
  history (hist s) !! Z.to_nat (historyIndex (hist s)) = Some (grid s) ->
  exists s' s1 s2, run s [MouseDown row col; MouseUp] = Some s' /\
    onKeyDown s' (ctrl_key "z") = Some s1 /\ grid s1 = grid s' /\
    onKeyDown s1 (ctrl_key "z") = Some s2 /\ grid s2 = grid s.
Proof.
  intros Ht Hb Hwf Hc.
  destruct (drawPixel_fill (set_last (Some (row, col)) (set_drawing true s)) row col)
    as [g' E]; [exact Ht|exact Hb|].
  assert (Hs' : exists s', run s [MouseDown row col; MouseUp] = Some s' /\
                  hist s' = saveState g' (saveState g' (hist s)) /\ grid s' = g').
  { simpl. unfold startDrawing. rewrite E. eexists. split; [reflexivity|]. split; reflexivity. }
  destruct Hs' as (s' & Er & Hh & Hg). exists s'.
  destruct (saveState_sync g' (grid s) (hist s) Hwf Hc)
    as (W1 & P1 & N1 & B1 & C1 & Q1).
  destruct (saveState_sync g' g' _ W1 C1) as (W2 & P2 & N2 & B2 & C2 & Q2).
  destruct (saveState g' (hist s)) as [L1 i1] eqn:Eh1. simpl in P1, N1, B1, C1, Q1, B2.
  destruct (saveState_facts g' L1 i1 W1 ltac:(lia)) as (_ & _ & _ & _ & Hprev).
  assert (Q3 : history (saveState g' (mkHistory L1 i1)) !!
                 Z.to_nat (historyIndex (saveState g' (mkHistory L1 i1)) - 1 - 1) = Some (grid s)).
  { rewrite Hprev by lia. rewrite <- Q1. done. }
  rewrite ctrl_z. unfold undo_ed. rewrite Hh, (undo_step _ _ _ P2 Q2).
  do 2 eexists. split; [exact Er|]. split; [reflexivity|].
  split; [cbn [grid set_grid]; rewrite Hg; reflexivity|].
  split.
  - rewrite ctrl_z. unfold undo_ed. cbn [hist set_grid set_hist].
    rewrite (undo_step _ g' (grid s)); [reflexivity|cbn [historyIndex]; lia|exact Q3].
  - reflexivity.
Qed.

Lemma hoverCells_In (H W b row col i j : Z) :
  In (i, j) (hoverCells H W b row col) <->
  in_bounds H W i j && in_brush b row col i j = true.
Proof.
  unfold hoverCells. rewrite in_concat. split.
  - intros (l & Hl & Hp).
    apply in_map_iff in Hl as (r & <- & Hr).
    apply in_concat in Hp as (l & Hl & Hp).
    apply in_map_iff in Hl as (c & <- & Hc).
    apply zrange_In in Hr, Hc.
    destruct (in_bounds H W (row + r) (col + c)) eqn:Eb; [|destruct Hp].
    destruct Hp as [Hp|[]]. injection Hp as <- <-.
    rewrite Eb. unfold in_brush. bool_to_Z. simpl. lia.
  - intros Hb. apply andb_true_iff in Hb as [Hb Hbr].
    unfold in_brush in Hbr. bool_to_Z.
    eexists. split.
    + apply in_map_iff. exists (i - row). split; [reflexivity|]. apply zrange_In. lia.
    + apply in_concat. eexists. split.
      * apply in_map_iff. exists (j - col). split; [reflexivity|]. apply zrange_In. lia.
      * replace (row + (i - row)) with i by lia. replace (col + (j - col)) with j by lia.
        rewrite Hb. left. reflexivity.
Qed.

(** X11. With a pencil or eraser selected and no stroke in progress, the
    hover preview at an in-bounds cell is drawn in the colour a click there
    would paint, and covers exactly the cells that click would change: every
    previewed cell ends up with that colour and every other cell is kept. *)
Theorem hover_preview_matches_click (s : Editor) (row col : Z) :
  is_brush_tool (currentTool s) = true -> isDrawing s = false ->
  wf_grid (gridHeight s) (gridWidth s) (grid s) ->
  in_bounds (gridHeight s) (gridWidth s) row col = true ->
  exists c cells s', renderHoverPreview s (Some (row, col)) = Some (c, cells) /\
    drawPixel s row col = Some s' /\
    (forall i j, In (i, j) cells -> cell (grid s') i j = Some c) /\
    (forall i j, ~ In (i, j) cells -> cell (grid s') i j = cell (grid s) i j).
Proof.
  intros Htool Hd Hwf Hb.
  set (c := match currentTool s with pencil => currentColor s | _ => WHITE end).
  destruct (stamp_cell (gridHeight s) (gridWidth s) c (brushSize s) row col (grid s) Hwf)
    as [_ Hc].
  exists c, (hoverCells (gridHeight s) (gridWidth s) (brushSize s) row col).
  unfold renderHoverPreview, drawPixel. rewrite Hd, Hb. simpl. subst c.
  destruct (currentTool s) eqn:Et; try discriminate; eexists;
    (split; [reflexivity|]); (split; [reflexivity|]); simpl;
    (split; intros i j Hin; rewrite Hc; pose proof (hoverCells_In (gridHeight s)
       (gridWidth s) (brushSize s) row col i j) as Hiff;
     [rewrite (proj1 Hiff Hin); reflexivity
     |destruct (in_bounds _ _ i j && in_brush _ _ _ i j); [tauto|reflexivity]]).
Qed.

(* ------------------------------------------------------------------ *)
(** ** The editor invariant *)

Lemma addToColorHistory_inv (color : Color) (ch : list Color) :
  List.NoDup ch ->
  List.NoDup (addToColorHistory color ch) /\ (length (addToColorHistory color ch) <= 20)%nat.
Proof.
  intros Hnd. unfold addToColorHistory. split; [|rewrite length_take; lia].
  apply NoDup_take'. constructor.
  - intros Hin. apply filter_In in Hin as [_ Hf].
    rewrite String.eqb_refl in Hf. discriminate.
  - apply List.NoDup_filter. done.
Qed.

Lemma saveState_entries (P : Grid -> Prop) (g : Grid) (h : History) :
  Forall P (history h) -> P g -> Forall P (history (saveState g h)).
Proof.
  intros Hh Hg. unfold saveState.
  assert (Hs : Forall P (take (Z.to_nat (historyIndex h + 1)) (history h) ++ [g])).
  { apply Forall_app. split; [apply Forall_take; done|constructor; [done|constructor]]. }
  destruct (MAX_HISTORY <? _); simpl; [apply Forall_drop|]; done.
Qed.

Lemma undo_entries (P : Grid -> Prop) (h h' : History) (g g' : Grid) :
  undo h g = Some (h', g') -> Forall P (history h) -> P g ->
  history h' = history h /\ P g'.
Proof.
  unfold undo. intros E Hh Hg. destruct (0 <? historyIndex h).
  - destruct (history h !! Z.to_nat (historyIndex h - 1)) as [x|] eqn:Ex; simpl in E;
      [|discriminate].
    injection E as <- <-. split; [done|]. eapply Forall_lookup_1; eauto.
  - injection E as <- <-. done.
Qed.

Lemma redo_entries (P : Grid -> Prop) (h h' : History) (g g' : Grid) :
  redo h g = Some (h', g') -> Forall P (history h) -> P g ->
  history h' = history h /\ P g'.
Proof.
  unfold redo. intros E Hh Hg. destruct (_ <? _).
  - destruct (history h !! Z.to_nat (historyIndex h + 1)) as [x|] eqn:Ex; simpl in E;
      [|discriminate].
    injection E as <- <-. split; [done|]. eapply Forall_lookup_1; eauto.
  - injection E as <- <-. done.
Qed.

(** Same grid shape and brush size. *)
Definition same_frame (s s' : Editor) : Prop :=
  gridHeight s' = gridHeight s /\ gridWidth s' = gridWidth s /\ brushSize s' = brushSize s.

Lemma same_frame_refl (s : Editor) : same_frame s s.
Proof. repeat split. Qed.

Lemma same_frame_trans (s1 s2 s3 : Editor) :
  same_frame s1 s2 -> same_frame s2 s3 -> same_frame s1 s3.
Proof. unfold same_frame. intros (? & ? & ?) (? & ? & ?). repeat split; congruence. Qed.

Lemma inv_saveState_ed (s : Editor) : editor_inv s -> editor_inv (saveState_ed s).
Proof.
  unfold editor_inv, saveState_ed. simpl. intros (Hg & Hh & He & Hc).
  split; [done|]. split; [apply saveState_wf; done|]. split; [|done].
  apply saveState_entries; done.
Qed.

Lemma inv_set_grid (g : Grid) (s : Editor) :
  editor_inv s -> wf_grid (gridHeight s) (gridWidth s) g -> editor_inv (set_grid g s).
Proof. unfold editor_inv. simpl. tauto. Qed.

Lemma inv_add_color (c : Color) (s : Editor) :
  editor_inv s -> editor_inv (set_colorHistory (addToColorHistory c (colorHistory s)) s).
Proof.
  unfold editor_inv. simpl. intros (Hg & Hh & He & Hnd & _).
  destruct (addToColorHistory_inv c _ Hnd). tauto.
Qed.

Lemma drawPixel_inv (s s' : Editor) (row col : Z) :
  editor_inv s -> drawPixel s row col = Some s' -> editor_inv s' /\ same_frame s s'.
Proof.
  intros Hi E. pose proof Hi as (Hg & _).
  unfold drawPixel in E.
  destruct (in_bounds _ _ row col); cbv [negb] in E;
    [|injection E as <-; split; [done|apply same_frame_refl]].
  destruct (currentTool s) eqn:Et.
  - injection E as <-. split; [|repeat split].
    apply inv_set_grid; [apply inv_add_color; done|].
    apply (stamp_cell (gridHeight s) (gridWidth s)); done.
  - injection E as <-. split; [|repeat split].
    apply inv_set_grid; [done|].
    apply (stamp_cell (gridHeight s) (gridWidth s)); done.
  - destruct (match cell (grid s) row col with
              | Some t => floodFill (fill_fuel t (grid s)) (gridHeight s) (gridWidth s)
                            row col t (currentColor s) (grid s)
              | None => Some (grid s) end) as [g'|] eqn:Ef; simpl in E; [|discriminate].
    assert (Hg' : wf_grid (gridHeight s) (gridWidth s) g').
    { destruct (cell (grid s) row col) as [t|].
      - eapply floodFill_recolors; eauto.
      - injection Ef as <-. done. }
    injection E as <-. split; [|repeat split].
    apply inv_saveState_ed. apply (inv_add_color _ (set_grid g' s)).
    apply inv_set_grid; done.
  - destruct (cell (grid s) row col) as [c|]; simpl in E; [|discriminate].
    injection E as <-. split; [|repeat split]. revert Hi. unfold editor_inv. simpl. tauto.
Qed.

Lemma inv_fields (s s' : Editor) :
  editor_inv s -> gridHeight s' = gridHeight s -> gridWidth s' = gridWidth s ->
  grid s' = grid s -> hist s' = hist s -> colorHistory s' = colorHistory s ->
  editor_inv s'.
Proof. unfold editor_inv. intros Hi -> -> -> -> ->. done. Qed.

Lemma drawPixels_inv (cells : list (Z * Z)) (s s' : Editor) :
  editor_inv s -> drawPixels s cells = Some s' -> editor_inv s' /\ same_frame s s'.
Proof.
  revert s. induction cells as [|[r c] cells IH]; intros s Hi E; simpl in E;
    [injection E as <-; split; [done|apply same_frame_refl]|].
  destruct (drawPixel s r c) as [s1|] eqn:E1; simpl in E; [|discriminate].
  destruct (drawPixel_inv _ _ _ _ Hi E1) as [Hi1 F1].
  destruct (IH s1 Hi1 E) as [Hi2 F2]. split; [done|]. eapply same_frame_trans; eauto.
Qed.

Lemma onCanvasMouseMove_inv (s s' : Editor) (b row col : Z) :
  editor_inv s -> onCanvasMouseMove s b row col = Some s' -> editor_inv s' /\ same_frame s s'.
Proof.
  intros Hi E. unfold onCanvasMouseMove in E.
  destruct (b =? 1); [|injection E as <-; split; [done|apply same_frame_refl]].
  set (s1 := if negb (isDrawing s) && is_brush_tool (currentTool s)
             then set_drawing true s else s) in E.
  assert (Hi1 : editor_inv s1 /\ same_frame s s1).
  { subst s1. destruct (negb (isDrawing s) && is_brush_tool (currentTool s)); [|split; [done|apply same_frame_refl]].
    split; [|repeat split]. eapply inv_fields; eauto. }
  clearbody s1. destruct Hi1 as [Hi1 F1].
  destruct (isDrawing s1 && is_brush_tool (currentTool s1));
    [|injection E as <-; done].
  destruct (match lastDrawnPos s1 with
            | Some (lr, lc) =>
                if negb ((lr =? row) && (lc =? col)) then drawLine s1 lr lc row col
                else Some s1
            | None => drawPixel s1 row col
            end) as [s2|] eqn:E2; simpl in E; [|discriminate].
  injection E as <-.
  assert (Hi2 : editor_inv s2 /\ same_frame s1 s2).
  { destruct (lastDrawnPos s1) as [[lr lc]|].
    - destruct (negb _); [|injection E2 as <-; split; [done|apply same_frame_refl]].
      unfold drawLine in E2. destruct (drawLine_cells lr lc row col); simpl in E2;
        [|discriminate].
      eapply drawPixels_inv; eauto.
    - eapply drawPixel_inv; eauto. }
  destruct Hi2 as [Hi2 F2]. split.
  - eapply inv_fields; eauto.
  - eapply same_frame_trans; [exact F1|]. eapply same_frame_trans; [exact F2|].
    repeat split.
Qed.

Lemma stopDrawing_inv (s : Editor) :
  editor_inv s -> editor_inv (stopDrawing s) /\ same_frame s (stopDrawing s).
Proof.
  intros Hi. unfold stopDrawing.
  assert (Hi1 : editor_inv (if isDrawing s then saveState_ed s else s)).
  { destruct (isDrawing s); [apply inv_saveState_ed|]; done. }
  split; [eapply inv_fields; eauto|].
  destruct (isDrawing s); repeat split.
Qed.

Lemma step_inv (s s' : Editor) (e : Event) :
  editor_inv s -> step s e = Some s' -> editor_inv s' /\ same_frame s s'.
Proof.
  intros Hi E. destruct e as [row col|b row col| |]; simpl in E.
  - unfold startDrawing in E. apply drawPixel_inv in E as [Hi' F];
      [split; [done|]|eapply inv_fields; eauto].
    destruct F as (? & ? & ?). repeat split; done.
  - eapply onCanvasMouseMove_inv; eauto.
  - injection E as <-.
    destruct (stopDrawing_inv s Hi) as [Hi1 F1].
    destruct (stopDrawing_inv _ Hi1) as [Hi2 F2].
    split; [done|]. eapply same_frame_trans; eauto.
  - injection E as <-. apply stopDrawing_inv. done.
Qed.

Lemma run_inv (es : list Event) (s s' : Editor) :
  editor_inv s -> run s es = Some s' -> editor_inv s' /\ same_frame s s'.
Proof.
  revert s. induction es as [|e es IH]; intros s Hi E; simpl in E;
    [injection E as <-; split; [done|apply same_frame_refl]|].
  destruct (step s e) as [s1|] eqn:E1; simpl in E; [|discriminate].
  destruct (step_inv _ _ _ Hi E1) as [Hi1 F1].
  destruct (IH s1 Hi1 E) as [Hi2 F2]. split; [done|]. eapply same_frame_trans; eauto.
Qed.

Lemma onKeyDown_inv (s s' : Editor) (event : KeyEvent) :
  editor_inv s -> onKeyDown s event = Some s' -> editor_inv s' /\ same_frame s s'.
Proof.
  intros Hi E. pose proof Hi as (Hg & Hh & He & Hc).
  assert (Hu : forall h' g', (undo (hist s) (grid s) = Some (h', g') \/
                              redo (hist s) (grid s) = Some (h', g')) ->
               editor_inv (set_grid g' (set_hist h' s)) /\
               same_frame s (set_grid g' (set_hist h' s))).
  { intros h' g' [Ed|Ed].
    - destruct (undo_entries _ _ _ _ _ Ed He Hg) as [Hl Hg'].
      split; [|repeat split]. unfold editor_inv. simpl. rewrite Hl.
      split; [done|]. split; [eapply undo_wf; eauto|]. done.
    - destruct (redo_entries _ _ _ _ _ Ed He Hg) as [Hl Hg'].
      split; [|repeat split]. unfold editor_inv. simpl. rewrite Hl.
      split; [done|]. split; [eapply redo_wf; eauto|]. done. }
  unfold onKeyDown, undo_ed, redo_ed in E.
  destruct ((ctrlKey event || metaKey event) && String.eqb (key event) "z" &&
            negb (shiftKey event)).
  - destruct (undo (hist s) (grid s)) as [[h' g']|] eqn:Ed; simpl in E; [|discriminate].
    injection E as <-. apply Hu. left. done.
  - destruct ((ctrlKey event || metaKey event) &&
              (String.eqb (key event) "y" || String.eqb (key event) "z" && shiftKey event)).
    + destruct (redo (hist s) (grid s)) as [[h' g']|] eqn:Ed; simpl in E; [|discriminate].
      injection E as <-. apply Hu. right. done.
    + injection E as <-. split; [done|apply same_frame_refl].
Qed.

Lemma fresh_editor_inv (n : Z) : 0 <= n -> editor_inv (fresh_editor n).
Proof.
  intros Hn. unfold fresh_editor, initializeGrid, saveState_ed, editor_inv. simpl.
  rewrite saveState_empty. simpl.
  split; [apply wf_make_grid|]. split; [right; simpl; unfold MAX_HISTORY; lia|].
  split; [constructor; [apply wf_make_grid|constructor]|].
  split; [|simpl; lia].
  repeat constructor; simpl; [intros [Heq|[]]; discriminate|intros []].
Qed.

(** X12. Every editor state reachable from a freshly mounted editor, by any
    sequence of pointer events and key presses, has a grid of the declared
    size, a well-formed history whose snapshots all have that size, and a
    duplicate-free color history of at most 20 colors; the grid size and the
    brush size never change. *)
Theorem session_keeps_inv (n : Z) (ins : list Input) (s' : Editor) :
  0 <= n -> session (fresh_editor n) ins = Some s' ->
  editor_inv s' /\ gridHeight s' = n /\ gridWidth s' = n /\ brushSize s' = 1.
Proof.
  intros Hn.
  assert (Hgen : forall s, editor_inv s -> session s ins = Some s' ->
                 editor_inv s' /\ same_frame s s').
  { induction ins as [|i ins IH]; intros s Hi E; simpl in E;
      [injection E as <-; split; [done|apply same_frame_refl]|].
    destruct (dispatch s i) as [s1|] eqn:E1; simpl in E; [|discriminate].
    assert (Hi1 : editor_inv s1 /\ same_frame s s1).
    { destruct i; simpl in E1; [eapply step_inv|eapply onKeyDown_inv]; eauto. }
    destruct Hi1 as [Hi1 F1]. destruct (IH s1 Hi1 E) as [Hi2 F2].
    split; [done|]. eapply same_frame_trans; eauto. }
  intros E. destruct (Hgen _ (fresh_editor_inv n Hn) E) as [Hi (Hh & Hw & Hb)].
  split; [done|]. rewrite Hh, Hw, Hb. repeat split.
Qed.

(* ------------------------------------------------------------------ *)
(** ** Zoom bounds *)

Lemma zoom_step_bounds (fadd : Q -> Q -> Q) (z : Q) (a : ZoomAction) :
  (forall x d, (0 <= d)%Q -> (x <= fadd x d)%Q) ->
  (forall x d, (d <= 0)%Q -> (fadd x d <= x)%Q) ->
  (MIN_ZOOM <= z <= MAX_ZOOM)%Q -> (MIN_ZOOM <= zoom_step fadd z a <= MAX_ZOOM)%Q.
Proof.
  intros Hup Hdown [Hlo Hhi]. destruct a as [| | |dy]; simpl.
  - unfold zoomIn. split; [|apply Q.le_min_l].
    apply Q.min_glb; [unfold MIN_ZOOM, MAX_ZOOM, Qle; simpl; lia|].
    eapply Qle_trans; [exact Hlo|]. apply Hup. unfold Qle; simpl; lia.
  - unfold zoomOut. split; [apply Q.le_max_l|].
    apply Q.max_lub; [unfold MIN_ZOOM, MAX_ZOOM, Qle; simpl; lia|].
    eapply Qle_trans; [|exact Hhi]. apply Hdown. unfold Qle; simpl; lia.
  - unfold resetZoom, MIN_ZOOM, MAX_ZOOM, Qle. simpl. lia.
  - unfold handleWheel. split; [apply Q.le_max_l|].
    apply Q.max_lub; [unfold MIN_ZOOM, MAX_ZOOM, Qle; simpl; lia|apply Q.le_min_l].
Qed.

(** X13. Provided the floating-point addition does not move a number the
    wrong way (adding a non-negative step never decreases it, adding a
    non-positive step never increases it), the zoom level stays within
    [[MIN_ZOOM, MAX_ZOOM] = [0.25, 4]] under any sequence of zoom-in,
    zoom-out, reset and wheel actions started from a level in that range,
    such as the initial level 1. *)
Theorem zoom_run_bounds (fadd : Q -> Q -> Q) (z : Q) (acts : list ZoomAction) :
  (forall x d, (0 <= d)%Q -> (x <= fadd x d)%Q) ->
  (forall x d, (d <= 0)%Q -> (fadd x d <= x)%Q) ->
  (MIN_ZOOM <= z <= MAX_ZOOM)%Q -> (MIN_ZOOM <= zoom_run fadd z acts <= MAX_ZOOM)%Q.
Proof.
  intros Hup Hdown. unfold zoom_run. revert z.
  induction acts as [|a acts IH]; intros z Hz; simpl; [done|].
  apply IH. apply zoom_step_bounds; done.
Qed.

(* ------------------------------------------------------------------ *)
(** ** Instances of the editor-level properties *)

Lemma clampCoords_in_bounds_witness :
  1 <= 8 /\ 1 <= 8 /\
  in_bounds 8 8 (clampCoords 8 8 (-3) 20).1 (clampCoords 8 8 (-3) 20).2 = true /\
  (in_bounds 8 8 (-3) 20 = true -> clampCoords 8 8 (-3) 20 = (-3, 20)).
Proof.
  split; [lia|]. split; [lia|]. apply (clampCoords_in_bounds 8 8 (-3) 20); lia.
Defined.

Lemma clearGrid_confirm_cancel_witness :
  let a := mkApp (fresh_editor 8) false alert "" None in
  wf_grid (gridHeight (ed a)) (gridWidth (ed a)) (grid (ed a)) /\
  let blank := make_grid (gridHeight (ed a)) (gridWidth (ed a)) WHITE in
  ed (confirmDialog (clearGrid a)) =
    set_hist (saveState blank (hist (ed a))) (set_grid blank (ed a)) /\
  dialogVisible (confirmDialog (clearGrid a)) = false /\
  ed (cancelDialog (clearGrid a)) = ed a /\
  dialogVisible (cancelDialog (clearGrid a)) = false.
Proof.
  intros a. split; [exact (wf_make_grid 8 8 WHITE)|].
  apply (clearGrid_confirm_cancel a); [simpl; lia|simpl; lia|exact (wf_make_grid 8 8 WHITE)].
Defined.

Lemma resizeGrid_valid_witness :
  let a := mkApp (fresh_editor 8) false alert "" None in
  parseInt "16" = Some 16 /\
  let a' := confirmDialog (typeInput "16" (resizeGrid a)) in
  gridHeight (ed a') = 16 /\ gridWidth (ed a') = 16 /\
  grid (ed a') = make_grid 16 16 WHITE /\
  hist (ed a') = mkHistory [make_grid 16 16 WHITE] 0 /\
  currentColor (ed a') = currentColor (ed a) /\ currentTool (ed a') = currentTool (ed a) /\
  brushSize (ed a') = brushSize (ed a) /\ colorHistory (ed a') = colorHistory (ed a) /\
  dialogVisible a' = false.
Proof.
  intros a. split; [reflexivity|].
  apply (resizeGrid_valid a "16" 16); [reflexivity|lia].
Defined.

Lemma resizeGrid_rejected_witness :
  let a := mkApp (fresh_editor 8) false alert "" None in
  parseInt "abc" = None /\ parseInt "100" = Some 100 /\
  ed (confirmDialog (typeInput "abc" (resizeGrid a))) = ed a /\
  ed (confirmDialog (typeInput "100" (resizeGrid a))) = ed a /\
  dialogVisible (confirmDialog (typeInput "100" (resizeGrid a))) = false.
Proof.
  intros a. split; [reflexivity|]. split; [reflexivity|]. split.
  - apply (resizeGrid_rejected a "abc"). left. reflexivity.
  - apply (resizeGrid_rejected a "100"). right. exists 100. split; [reflexivity|lia].
Defined.


Lemma onKeyDown_ignored_witness :
  onKeyDown (fresh_editor 8) (mkKeyEvent true false true "Z") = Some (fresh_editor 8) /\
  onKeyDown (fresh_editor 8) (mkKeyEvent false false false "z") = Some (fresh_editor 8).
Proof.
  split.
  - apply onKeyDown_ignored. right. split; discriminate.
  - apply onKeyDown_ignored. left. reflexivity.
Defined.

Lemma undo_redo_keys_roundtrip_witness :
  let s := mkEditor 1 1 [["#123456"]] BLACK pencil false None 1
             (mkHistory [[[WHITE]]; [["#123456"]]; [[BLACK]]] 1) [BLACK; WHITE] in
  wf_history (hist s) /\
  (s1 ← onKeyDown s (ctrl_key "z"); onKeyDown s1 (ctrl_key "y")) = Some s /\
  (s1 ← onKeyDown s (ctrl_key "y"); onKeyDown s1 (ctrl_key "z")) = Some s.
Proof.
  intros s.
  assert (Hw : wf_history (hist s)) by (right; simpl; unfold MAX_HISTORY; lia).
  destruct (undo_redo_keys_roundtrip s Hw eq_refl) as [Hzy Hyz].
  split; [exact Hw|]. split; [apply Hzy; simpl; lia|apply Hyz; simpl; lia].
Defined.

Lemma brush_drag_undo_redo_witness :
  let es := MouseDown 3 3 :: map (fun '(b, r, c) => MouseMove b r c)
                                 [(1, 3, 4); (1, 5, 6)] ++ [MouseUp] in
  let s' := match run (fresh_editor 8) es with Some s' => s' | None => fresh_editor 8 end in
  run (fresh_editor 8) es = Some s' /\
  exists s1, onKeyDown s' (ctrl_key "z") = Some s1 /\ grid s1 = grid (fresh_editor 8) /\
             onKeyDown s1 (ctrl_key "y") = Some s'.
Proof.
  intros es s'.
  assert (Er : run (fresh_editor 8) es = Some s') by (vm_compute; reflexivity).
  split; [exact Er|].
  apply (brush_drag_undo_redo (fresh_editor 8) s' 3 3 [(1, 3, 4); (1, 5, 6)]);
    [reflexivity|exact (proj1 (proj2 (fresh_editor_inv 8 ltac:(lia))))|reflexivity|exact Er].
Defined.

Lemma fill_click_undo_witness :
  exists s' s1 s2, run (set_tool fill (fresh_editor 8)) [MouseDown 3 3; MouseUp] = Some s' /\
    onKeyDown s' (ctrl_key "z") = Some s1 /\ grid s1 = grid s' /\
    onKeyDown s1 (ctrl_key "z") = Some s2 /\ grid s2 = grid (set_tool fill (fresh_editor 8)).
Proof.
  apply (fill_click_undo (set_tool fill (fresh_editor 8)) 3 3);
    [reflexivity|reflexivity|exact (proj1 (proj2 (fresh_editor_inv 8 ltac:(lia))))|reflexivity].
Defined.

Lemma hover_preview_matches_click_witness :
  let s := mkEditor 8 8 (make_grid 8 8 WHITE) BLACK pencil false None 3
             (mkHistory [] (-1)) [BLACK; WHITE] in
  exists c cells s', renderHoverPreview s (Some (0, 0)) = Some (c, cells) /\
    drawPixel s 0 0 = Some s' /\
    (forall i j, In (i, j) cells -> cell (grid s') i j = Some c) /\
    (forall i j, ~ In (i, j) cells -> cell (grid s') i j = cell (grid s) i j).
Proof.
  intros s. apply (hover_preview_matches_click s 0 0);
    [reflexivity|reflexivity|exact (wf_make_grid 8 8 WHITE)|reflexivity].
Defined.

Lemma session_keeps_inv_witness :
  let ins := [Pointer (MouseDown 3 3); Pointer (MouseMove 1 4 5); Pointer MouseUp;
              Key (ctrl_key "z"); Key (ctrl_key "y")] in
  let s' := match session (fresh_editor 8) ins with
            | Some s' => s' | None => fresh_editor 8 end in
  session (fresh_editor 8) ins = Some s' /\
  editor_inv s' /\ gridHeight s' = 8 /\ gridWidth s' = 8 /\ brushSize s' = 1.
Proof.
  intros ins s'.
  assert (E : session (fresh_editor 8) ins = Some s') by (vm_compute; reflexivity).
  split; [exact E|]. apply (session_keeps_inv 8 ins s'); [lia|exact E].
Defined.

Lemma zoom_run_bounds_witness :
  (MIN_ZOOM <= zoom_run Qplus 1 [ZoomInClick; Wheel 1; ResetZoomClick; ZoomOutClick;
                                 Wheel (-3)] <= MAX_ZOOM)%Q.
Proof.
  apply zoom_run_bounds.
  - intros x d Hd. rewrite <- (Qplus_le_r _ _ x) in Hd. rewrite Qplus_0_r in Hd. exact Hd.
  - intros x d Hd. rewrite <- (Qplus_le_r _ _ x) in Hd. rewrite Qplus_0_r in Hd. exact Hd.
  - unfold MIN_ZOOM, MAX_ZOOM, Qle. simpl. lia.
Defined.
